(** * generate_slurm_script: a shallow embedding and its verified properties

    The Python module [generate_slurm_script.py] renders a SLURM batch
    submission script from four frozen dataclasses ([SlurmHeader],
    [PythonCall], [SrunCall], [SingularityCall]).  Every function of the
    module is embedded below as a Rocq function over [string]; Python
    exceptions are values of an error monad, Python integers are [Z], and a
    local variable that may be read before it is bound is an [option]. *)

From Stdlib Require Import String Ascii ZArith List Bool Lia Sorted.
From Stdlib Require Import DecimalString DecimalZ.
Import ListNotations.

Open Scope string_scope.
Open Scope Z_scope.

(** ** Exceptions and the error monad *)

Inductive exn : Type :=
| IndexError
| UnboundLocalError
| AttributeError
| ValueError (msg : string).

Inductive result (A : Type) : Type :=
| Ok (a : A)
| Raise (e : exn).

Arguments Ok {A} a.
Arguments Raise {A} e.

Definition bind {A B : Type} (r : result A) (k : A -> result B) : result B :=
  match r with
  | Ok a => k a
  | Raise e => Raise e
  end.

Notation "x <- e ;; k" := (bind e (fun x => k))
  (at level 61, e at next level, right associativity).

(** Reading a local variable: [None] is a name that has not been bound yet. *)
Definition read_local {A : Type} (v : option A) : result A :=
  match v with
  | Some a => Ok a
  | None => Raise UnboundLocalError
  end.

(** ** Python strings *)

Definition nl : ascii := ascii_of_nat 10.
Definition dq : string := String (ascii_of_nat 34) "".

Definition str_len (s : string) : Z := Z.of_nat (String.length s).

(** [s[i]], negative indices counting from the end. *)
Definition str_getitem (s : string) (i : Z) : result ascii :=
  let j := if i <? 0 then i + str_len s else i in
  if (j <? 0) || (str_len s <=? j) then Raise IndexError
  else match String.get (Z.to_nat j) s with
       | Some c => Ok c
       | None => Raise IndexError
       end.

(** [s[:stop]]. *)
Definition str_slice_to (s : string) (stop : Z) : string :=
  let k := if stop <? 0 then Z.max 0 (stop + str_len s)
           else Z.min stop (str_len s) in
  String.substring 0 (Z.to_nat k) s.

(** [s.endswith(suffix)]. *)
Definition endswith (s suffix : string) : bool :=
  (String.length suffix <=? String.length s)%nat
  && String.eqb
       (String.substring (String.length s - String.length suffix)
          (String.length suffix) s)
       suffix.

(** [s.replace(old, new)]: leftmost, non-overlapping occurrences.  [skip]
    counts the characters of a match that are still to be consumed. *)
Fixpoint replace_from (old new : string) (skip : nat) (s : string) : string :=
  match s with
  | EmptyString => EmptyString
  | String c s' =>
      match skip with
      | S k => replace_from old new k s'
      | O =>
          if String.prefix old s
          then new ++ replace_from old new (Nat.pred (String.length old)) s'
          else String c (replace_from old new O s')
      end
  end.

Fixpoint intersperse (new s : string) : string :=
  match s with
  | EmptyString => new
  | String c s' => new ++ String c (intersperse new s')
  end.

Definition replace (old new s : string) : string :=
  match old with
  | EmptyString => intersperse new s
  | String _ _ => replace_from old new O s
  end.

(** [sep.join(l)]. *)
Fixpoint join (sep : string) (l : list string) : string :=
  match l with
  | [] => ""
  | [x] => x
  | x :: rest => x ++ sep ++ join sep rest
  end.

(** [str(n)] for an integer. *)
Definition str_int (z : Z) : string := NilZero.string_of_int (Z.to_int z).

(** [f'{t:02}'] for an integer: sign-aware zero padding to width two. *)
Definition fmt02 (t : Z) : string :=
  if (0 <=? t) && (t <? 10) then "0" ++ str_int t else str_int t.

(** [range(n)]. *)
Definition range (n : Z) : list Z := map Z.of_nat (seq 0 (Z.to_nat n)).

(** ** Attribute values *)

Inductive pyval : Type :=
| PyInt (z : Z)
| PyStr (s : string)
| PyBool (b : bool)
| PyTuple (l : list Z).

Definition Z_of_bool (b : bool) : Z := if b then 1 else 0.

Fixpoint list_Z_eqb (a b : list Z) : bool :=
  match a, b with
  | [], [] => true
  | x :: a', y :: b' => (x =? y) && list_Z_eqb a' b'
  | _, _ => false
  end.

(** [a == b]. *)
Definition py_eqb (a b : pyval) : bool :=
  match a, b with
  | PyInt x, PyInt y => x =? y
  | PyInt x, PyBool y => x =? Z_of_bool y
  | PyBool x, PyInt y => Z_of_bool x =? y
  | PyBool x, PyBool y => Bool.eqb x y
  | PyStr x, PyStr y => String.eqb x y
  | PyTuple x, PyTuple y => list_Z_eqb x y
  | _, _ => false
  end.

(** [f"{v}"]. *)
Definition py_format (v : pyval) : string :=
  match v with
  | PyInt z => str_int z
  | PyStr s => s
  | PyBool true => "True"
  | PyBool false => "False"
  | PyTuple [z] => "(" ++ str_int z ++ ",)"
  | PyTuple l => "(" ++ join ", " (map str_int l) ++ ")"
  end.

(** Truth value of [v] in a condition. *)
Definition py_truthy (v : pyval) : bool :=
  match v with
  | PyInt z => negb (z =? 0)
  | PyStr s => negb (String.eqb s "")
  | PyBool b => b
  | PyTuple l => match l with [] => false | _ => true end
  end.

(** A dataclass field: its name and its default, [None] being the
    [MISSING] sentinel of a field declared without a default. *)
Record Field : Type := mkField {
  field_name : string;
  field_default : option pyval
}.

(** [value != default], where nothing equals [MISSING]. *)
Definition py_ne_default (value : pyval) (default : option pyval) : bool :=
  match default with
  | None => true
  | Some d => negb (py_eqb value d)
  end.

(** ** SlurmHeader *)

Module SlurmHeader.

Record t : Type := mk {
  account : string;
  partition : string;
  qos : string;
  job_name : string;
  output : string;
  error : string;
  nodes : Z;
  ntasks_per_node : Z;
  time : Z * Z * Z;
  switches : Z;
  distribution : string;
  hint : string;
  exclusive : bool;
  requeue : bool;
  mail_user : string;
  mail_type : string;
  bash_path : string;
  job_directory : string
}.

(** These options are only included if their value is set. *)
Definition optionals : list string :=
  ["switches"; "distribution"; "hint"; "mail_user"; "mail_type"].

(** These options are only included if True. *)
Definition flags : list string := ["exclusive"; "requeue"].

(** [fields(self)]: the dataclass fields in declaration order, with the
    declared defaults. *)
Definition fields : list Field :=
  [ mkField "account" None;
    mkField "partition" (Some (PyStr "standard"));
    mkField "qos" (Some (PyStr "standard"));
    mkField "job_name" None;
    mkField "output" (Some (PyStr "slurm-%x-%j.out"));
    mkField "error" (Some (PyStr "slurm-%x-%j.out"));
    mkField "nodes" None;
    mkField "ntasks_per_node" None;
    mkField "time" None;
    mkField "switches" (Some (PyInt (-1)));
    mkField "distribution" (Some (PyStr ""));
    mkField "hint" (Some (PyStr ""));
    mkField "exclusive" (Some (PyBool false));
    mkField "requeue" (Some (PyBool false));
    mkField "mail_user" (Some (PyStr ""));
    mkField "mail_type" (Some (PyStr ""));
    mkField "bash_path" (Some (PyStr "!/bin/bash"));
    mkField "job_directory" (Some (PyStr "")) ].

(** [getattr(self, name)]. *)
Definition getattr (self : t) (name : string) : result pyval :=
  if String.eqb name "account" then Ok (PyStr (account self))
  else if String.eqb name "partition" then Ok (PyStr (partition self))
  else if String.eqb name "qos" then Ok (PyStr (qos self))
  else if String.eqb name "job_name" then Ok (PyStr (job_name self))
  else if String.eqb name "output" then Ok (PyStr (output self))
  else if String.eqb name "error" then Ok (PyStr (error self))
  else if String.eqb name "nodes" then Ok (PyInt (nodes self))
  else if String.eqb name "ntasks_per_node"
       then Ok (PyInt (ntasks_per_node self))
  else if String.eqb name "time"
       then let '(h, m, s) := time self in Ok (PyTuple [h; m; s])
  else if String.eqb name "switches" then Ok (PyInt (switches self))
  else if String.eqb name "distribution" then Ok (PyStr (distribution self))
  else if String.eqb name "hint" then Ok (PyStr (hint self))
  else if String.eqb name "exclusive" then Ok (PyBool (exclusive self))
  else if String.eqb name "requeue" then Ok (PyBool (requeue self))
  else if String.eqb name "mail_user" then Ok (PyStr (mail_user self))
  else if String.eqb name "mail_type" then Ok (PyStr (mail_type self))
  else if String.eqb name "bash_path" then Ok (PyStr (bash_path self))
  else if String.eqb name "job_directory"
       then Ok (PyStr (job_directory self))
  else Raise AttributeError.

(** The inner loop [for field in all_fields: if field.name == option:
    default = field.default; break].  [default] is the binding of the local
    variable on entry ([None]: not bound yet); the result is its binding
    after the loop. *)
Fixpoint find_default (all_fields : list Field) (opt : string)
    (default : option (option pyval)) : option (option pyval) :=
  match all_fields with
  | [] => default
  | field :: rest =>
      if String.eqb (field_name field) opt
      then Some (field_default field)
      else find_default rest opt default
  end.

(** The block appended for an optional directive. *)
Definition optional_block (opt : string) (value : pyval) : string :=
  "#
#SBATCH --" ++ replace "_" "-" opt ++ "=" ++ py_format value ++ "
".

(** The block appended for a flag. *)
Definition flag_block (flag : string) : string :=
  "#
#SBATCH --" ++ flag ++ "
".

(** The loop over [self.optionals], threading the locals [default] and
    [header]. *)
Fixpoint optionals_loop (self : t) (all_fields : list Field)
    (options : list string) (default : option (option pyval))
    (header : string) : result string :=
  match options with
  | [] => Ok header
  | opt :: rest =>
      value <- getattr self opt ;;
      let default := find_default all_fields opt default in
      d <- read_local default ;;
      let header :=
        if py_ne_default value d
        then header ++ optional_block opt value
        else header in
      optionals_loop self all_fields rest default header
  end.

(** The loop over [self.flags]. *)
Fixpoint flags_loop (self : t) (fls : list string) (header : string)
    : result string :=
  match fls with
  | [] => Ok header
  | flag :: rest =>
      v <- getattr self flag ;;
      let header :=
        if py_truthy v then header ++ flag_block flag else header in
      flags_loop self rest header
  end.

(** The mandatory block of the header, for an already stripped job
    directory. *)
Definition mandatory_block (self : t) (job_directory : string) : string :=
  let '(hh, mm, ss) := time self in
  "#" ++ bash_path self ++ "
#
#SBATCH --account=" ++ account self ++ "
#SBATCH --partition=" ++ partition self ++ "
#SBATCH --qos=" ++ qos self ++ "
#
#SBATCH --job-name=" ++ job_name self ++ "
#SBATCH --output=" ++ job_directory ++ "/" ++ output self ++ "
#SBATCH --error=" ++ job_directory ++ "/" ++ error self ++ "
#
#SBATCH --nodes=" ++ str_int (nodes self) ++ "
#SBATCH --ntasks-per-node=" ++ str_int (ntasks_per_node self) ++ "
#
#SBATCH --time=" ++ join ":" (map fmt02 [hh; mm; ss]) ++ "
".

(** [SlurmHeader.__str__]. *)
Definition __str__ (self : t) : result string :=
  let job_directory := job_directory self in
  last <- str_getitem job_directory (-1) ;;
  let job_directory :=
    if Ascii.eqb last "/" then str_slice_to job_directory (-1)
    else job_directory in
  let header := mandatory_block self job_directory in
  let all_fields := fields in
  header <- optionals_loop self all_fields optionals None header ;;
  flags_loop self flags header.

End SlurmHeader.

(** ** PythonCall *)

Module PythonCall.

Record t : Type := mk {
  path : string;
  args : string;
  script_name : string;
  script_dir : string;
  script_args : string
}.

End PythonCall.

(** ** SrunCall *)

Module SrunCall.

Record t : Type := mk {
  l3cores : Z;
  l3size : Z;
  nodesize : Z;
  args : string;
  xthi : bool
}.

Definition cpu_map_cmd (l3size l3cores nodesize : string) : string :=
  "$(python3 -c " ++ dq
  ++ "print(','.join(map(str,filter(lambda i: (i%" ++ l3size ++ ")<"
  ++ l3cores ++ ", range(" ++ nodesize ++ ")))))" ++ dq ++ ")".

(** [self.cpu_map_cmd()], every parameter at its default. *)
Definition cpu_map_cmd_default : string :=
  cpu_map_cmd "${L3SIZE}" "${L3CORES}" "${NODESIZE}".

Definition must_set_all_msg : string :=
  "Must set all of l3cores,l3size,nodesize to generate an srun cpu_map".

Definition affinity_block (self : t) : string :=
  "
# L3 cache is the lowest level of shared memory, with L3SIZE cores per cache
# and NODESIZE/L3SIZE L3 caches per node. Using fewer than L3SIZE cores/L3
# cache may improve strong scaling performance for memory bound applications.
# The ntasks-per-node value must be equal to L3CORES*(NODESIZE/L3SIZE).

L3CORES=" ++ str_int (l3cores self) ++ "
L3SIZE=" ++ str_int (l3size self) ++ "
NODESIZE=" ++ str_int (nodesize self) ++ "

CPU_MAP=" ++ cpu_map_cmd_default ++ "
".

Definition srun_block (args : string) : string :=
  "
SRUN_ARGS=" ++ dq ++ args ++ dq ++ "
SRUN_CALL=" ++ dq ++ "srun ${SRUN_ARGS}" ++ dq ++ "
".

(** [SrunCall.__str__]. *)
Definition __str__ (self : t) : result string :=
  let text := "" in
  let args := args self in
  let cpu_map_vals := [l3cores self; l3size self; nodesize self] in
  if existsb (fun val => val >? 0) cpu_map_vals then
    if negb (forallb (fun val => val >? 0) cpu_map_vals) then
      Raise (ValueError must_set_all_msg)
    else
      let args := args ++ " --cpu_bind=map_cpu:${CPU_MAP}" in
      let text := text ++ affinity_block self in
      Ok (text ++ srun_block args)
  else Ok (text ++ srun_block args).

End SrunCall.

(** ** SingularityCall *)

Module SingularityCall.

Record t : Type := mk {
  container : string;
  args : string;
  bind_from : string;
  bind_to : string;
  home : string;
  directory : string;
  setup_file : string
}.

(** [SingularityCall.full_args].  The local [args] is only bound by the
    first branch, so it is an [option] and every read goes through
    [read_local]. *)
Definition full_args (self : t) : result string :=
  let args : option string :=
    if negb (String.eqb (home self) "")
    then Some ("--home " ++ home self) else None in
  args <-
    (if negb (String.eqb (bind_from self) "") then
       a <- read_local args ;;
       args <-
         (if negb (String.eqb a "") then
            a' <- read_local args ;;
            if negb (endswith a' " ") then
              a'' <- read_local args ;; Ok (Some (a'' ++ " "))
            else Ok args
          else Ok args) ;;
       a <- read_local args ;;
       Ok (Some (a ++ "--bind " ++ bind_from self))
     else Ok args) ;;
  args <-
    (if negb (String.eqb (bind_to self) "") then
       a <- read_local args ;;
       Ok (Some (a ++ ":" ++ bind_to self))
     else Ok args) ;;
  read_local args.

End SingularityCall.

(** ** generate_submission_script *)

(** The local [output_file]: the output pattern under the job directory,
    with the SLURM placeholders turned into shell variables. *)
Definition output_file (header : SlurmHeader.t) : string :=
  let output_file :=
    SlurmHeader.job_directory header ++ "/" ++ SlurmHeader.output header in
  let output_file := replace "%x" "${SLURM_JOB_NAME}" output_file in
  replace "%j" "${SLURM_JOB_ID}" output_file.

(** The local [error_file]. *)
Definition error_file (header : SlurmHeader.t) : string :=
  let error_file :=
    SlurmHeader.job_directory header ++ "/" ++ SlurmHeader.error header in
  let error_file := replace "%x" "${SLURM_JOB_NAME}" error_file in
  replace "%j" "${SLURM_JOB_ID}" error_file.

(** The text appended to [str(header)]; [singularity_args] and [srun_text]
    are the values of [singularity.full_args()] and [str(srun)]. *)
Definition script_body (header : SlurmHeader.t) (python : PythonCall.t)
    (srun : SrunCall.t) (singularity : SingularityCall.t)
    (singularity_args srun_text output_file : string) : string :=
  "
# exit on first error
set -e

# print commands
set -x

### === --- Unique identifier and directory

JOBCODE=${SLURM_JOB_NAME}-${SLURM_JOB_ID}
JOBDIR=" ++ SlurmHeader.job_directory header ++ "/${JOBCODE}
mkdir -p ${JOBDIR}

### === --- Python scripts and arguments

PYTHON_SCRIPT=" ++ PythonCall.script_name python ++ "
PYTHON_SCRIPT_DIR=" ++ PythonCall.script_dir python ++ "

PYTHON_SCRIPT_ARGS=" ++ dq ++ PythonCall.script_args python ++ dq ++ "

### === --- Python executable

PYTHON_ARGS=" ++ dq ++ PythonCall.args python ++ dq ++ "
PYTHON_EXEC=" ++ dq ++ PythonCall.path python ++ dq ++ "

PYTHON_CALL=" ++ dq ++ "${PYTHON_EXEC} ${PYTHON_ARGS}" ++ dq ++ "

### === --- Setup the environment for singularity

export SIFDIR=" ++ dq ++ SingularityCall.directory singularity ++ dq ++ "
CONTAINER=" ++ dq ++ SingularityCall.container singularity ++ dq ++ "

SINGULARITY_ARGS=" ++ dq ++ singularity_args ++ dq ++ "
SINGULARITY_CALL=" ++ dq ++ "singularity run ${SINGULARITY_ARGS}" ++ dq ++ "

source ${SIFDIR}/" ++ SingularityCall.setup_file singularity ++ "

### === --- srun call

" ++ srun_text ++ "

### === --- Print rank layout or not?

RUN_XTHI=" ++ str_int (Z_of_bool (SrunCall.xthi srun)) ++ "

### === --- ------------------------------------------------ --- === ###
### === --- Usually won't need to change anything below here --- === ###
### === --- ------------------------------------------------ --- === ###

### === --- Some job info for debugging

set +x
echo -e " ++ dq ++ "Job started at " ++ dq ++ " `date`
echo " ++ dq ++ dq ++ "

echo " ++ dq ++ "What job is running?" ++ dq ++ "
echo SLURM_JOB_ID          = $SLURM_JOB_ID
echo SLURM_JOB_NAME        = $SLURM_JOB_NAME
echo SLURM_JOB_ACCOUNT     = $SLURM_JOB_ACCOUNT
echo " ++ dq ++ dq ++ "

echo " ++ dq ++ "Where is the job running?" ++ dq ++ "
echo SLURM_CLUSTER_NAME    = $SLURM_CLUSTER_NAME
echo SLURM_JOB_PARTITION   = $SLURM_JOB_PARTITION
echo SLURM_JOB_QOS         = $SLURM_JOB_QOS
echo SLURM_SUBMIT_DIR      = $SLURM_SUBMIT_DIR
echo " ++ dq ++ dq ++ "

echo " ++ dq ++ "What are we running on?" ++ dq ++ "
echo SLURM_DISTRIBUTION    = $SLURM_DISTRIBUTION
echo SLURM_NTASKS          = $SLURM_NTASKS
echo SLURM_NTASKS_PER_NODE = $SLURM_NTASKS_PER_NODE
echo SLURM_JOB_NUM_NODES   = $SLURM_JOB_NUM_NODES
echo SLURM_JOB_NODELIST    = $SLURM_JOB_NODELIST
echo " ++ dq ++ dq ++ "
set -x

### === --- Check the rank layout

if [[ ${RUN_XTHI} -gt 0 ]]; then
   export MPICH_ENV_DISPLAY=1
   set +x
   echo module load xthi
   module load xthi
   set -x
   echo -e " ++ dq ++ "xthi started at " ++ dq ++ " `date`
   $SRUN_CALL xthi > ${JOBDIR}/xthi.log 2>&1
   echo -e " ++ dq ++ "xthi finished at " ++ dq ++ " `date`
   unset MPICH_ENV_DISPLAY
fi

### === --- Copy files to nodes

echo -e " ++ dq ++ "Start copying files to nodes: " ++ dq ++ " `date`
echo -e " ++ dq ++ dq ++ "

TMP_SCRIPT=${JOBDIR}/${JOBCODE}-${PYTHON_SCRIPT}

cp ${PYTHON_SCRIPT_DIR}/${PYTHON_SCRIPT} ${TMP_SCRIPT}

sbcast --compress=none ${SIFDIR}/${CONTAINER} /tmp/${CONTAINER}

### === --- Run the script

set +x
echo -e " ++ dq ++ "Script start time: " ++ dq ++ " `date`
echo -e " ++ dq ++ dq ++ "

set -x
${SRUN_CALL} ${SINGULARITY_CALL} /tmp/${CONTAINER} \ 
    ${PYTHON_CALL} ${TMP_SCRIPT} ${PYTHON_SCRIPT_ARGS}

echo -e " ++ dq ++ "Script end time: " ++ dq ++ " `date`

OUTPUT_FILE=" ++ output_file ++ "
cp ${OUTPUT_FILE} ${JOBDIR}/${OUTPUT_FILE}
".

(** The text appended when the error file is not the output file. *)
Definition error_block (error_file : string) : string :=
  "
ERROR_FILE=" ++ error_file ++ "
cp ${ERROR_FILE} ${JOBDIR}/${ERROR_FILE}
".

(** What a call leaves behind: the returned script and, when a script name
    was given, the file written (its name and its contents). *)
Record outcome : Type := mkOutcome {
  script : string;
  written : option (string * string)
}.

(** [generate_submission_script]; [script_name = None] is Python's [None].
    The expressions of the template are evaluated in the order in which they
    occur in it, after [str(header)]. *)
Definition generate_submission_script (header : SlurmHeader.t)
    (python : PythonCall.t) (srun : SrunCall.t)
    (singularity : SingularityCall.t) (script_name : option string)
    : result outcome :=
  let output_file := output_file header in
  let error_file := error_file header in
  script <- SlurmHeader.__str__ header ;;
  singularity_args <- SingularityCall.full_args singularity ;;
  srun_text <- SrunCall.__str__ srun ;;
  let script :=
    script ++ script_body header python srun singularity
                singularity_args srun_text output_file in
  let script :=
    if negb (String.eqb error_file output_file)
    then script ++ error_block error_file
    else script in
  match script_name with
  | Some name =>
      if negb (String.eqb name "")
      then Ok (mkOutcome script (Some (name, script)))
      else Ok (mkOutcome script None)
  | None => Ok (mkOutcome script None)
  end.

(** ** The configuration of the module's [__main__] block *)

Module Example.

(** The header of the [__main__] block, up to the fields named here. *)
Definition header_with (bash_path hint mail_user : string) (exclusive : bool)
    (job_directory : string) : SlurmHeader.t :=
  {| SlurmHeader.account := "e781";
     SlurmHeader.partition := "standard";
     SlurmHeader.qos := "standard";
     SlurmHeader.job_name := "test_job";
     SlurmHeader.output := "slurm-%x-%j.out";
     SlurmHeader.error := "slurm-%x-%j.out";
     SlurmHeader.nodes := 1;
     SlurmHeader.ntasks_per_node := 2;
     SlurmHeader.time := (0, 5, 0);
     SlurmHeader.switches := -1;
     SlurmHeader.distribution := "block:block";
     SlurmHeader.hint := hint;
     SlurmHeader.exclusive := exclusive;
     SlurmHeader.requeue := true;
     SlurmHeader.mail_user := mail_user;
     SlurmHeader.mail_type := "";
     SlurmHeader.bash_path := bash_path;
     SlurmHeader.job_directory := job_directory |}.

Definition header : SlurmHeader.t :=
  header_with "!/bin/bash" "nomultithread" "" true "results".

(** The same header with a trailing slash on the job directory, and with
    the job directory left at its default. *)
Definition header_slash : SlurmHeader.t :=
  header_with "!/bin/bash" "nomultithread" "" true "results/".

Definition header_no_directory : SlurmHeader.t :=
  header_with "!/bin/bash" "nomultithread" "" true "".

(** Headers one of whose values reads like a directive: the interpreter
    path, or the second line of a two-line mail address. *)
Definition header_hint_path : SlurmHeader.t :=
  header_with "SBATCH --hint=" "" "" true "results".

Definition header_hint_mail : SlurmHeader.t :=
  header_with "!/bin/bash" "" "me@example.org
#SBATCH --hint=" true "results".

Definition header_exclusive_path : SlurmHeader.t :=
  header_with "SBATCH --exclusive" "nomultithread" "" false "results".

Definition header_exclusive_mail : SlurmHeader.t :=
  header_with "!/bin/bash" "nomultithread" "me@example.org
#SBATCH --exclusive" false "results".

Definition python : PythonCall.t :=
  {| PythonCall.path := "/home/firedrake/firedrake/bin/python";
     PythonCall.args := "";
     PythonCall.script_name := "script.py";
     PythonCall.script_dir := "examples";
     PythonCall.script_args := "--metrics_dir=${JOBDIR} --extra_arg=value" |}.

Definition srun : SrunCall.t :=
  {| SrunCall.l3cores := 2;
     SrunCall.l3size := 4;
     SrunCall.nodesize := 128;
     SrunCall.args := "--hint=nomultithread";
     SrunCall.xthi := true |}.

Definition singularity : SingularityCall.t :=
  {| SingularityCall.container := "firedrake-archer2.sif";
     SingularityCall.args := "";
     SingularityCall.bind_from := "$PWD";
     SingularityCall.bind_to := "/home/firedrake/work";
     SingularityCall.home := "$PWD";
     SingularityCall.directory := "/work/e781/shared/firedrake-singularity";
     SingularityCall.setup_file := "singularity_setup.sh" |}.

(** A container configuration with every optional field at its default. *)
Definition bare_container : SingularityCall.t :=
  {| SingularityCall.container := "firedrake-archer2.sif";
     SingularityCall.args := "";
     SingularityCall.bind_from := "";
     SingularityCall.bind_to := "";
     SingularityCall.home := "";
     SingularityCall.directory := "";
     SingularityCall.setup_file := "" |}.

(** A home and a bind destination, without a bind source. *)
Definition home_and_bind_to : SingularityCall.t :=
  {| SingularityCall.container := "firedrake-archer2.sif";
     SingularityCall.args := "";
     SingularityCall.bind_from := "";
     SingularityCall.bind_to := "/home/firedrake/work";
     SingularityCall.home := "$PWD";
     SingularityCall.directory := "";
     SingularityCall.setup_file := "" |}.

End Example.

(** ** Vocabulary of the statements *)

(** [text.split(chr(10))]: the lines of a text. *)
Fixpoint lines (text : string) : list string :=
  match text with
  | EmptyString => [""]
  | String c rest =>
      if Ascii.eqb c nl then "" :: lines rest
      else match lines rest with
           | [] => [String c ""]
           | l :: ls => String c l :: ls
           end
  end.

(** [line] is one of the lines of [text]. *)
Definition has_line (text line : string) : Prop := In line (lines text).

(** The text made of the given lines, each one terminated by a newline. *)
Fixpoint unlines (ls : list string) : string :=
  match ls with
  | [] => ""
  | l :: rest => l ++ String nl (unlines rest)
  end.

Fixpoint newline_free (s : string) : bool :=
  match s with
  | EmptyString => true
  | String c rest => negb (Ascii.eqb c nl) && newline_free rest
  end.

(** [s] ends with [suffix]. *)
Definition is_suffix (suffix s : string) : Prop :=
  exists pre, s = pre ++ suffix.

(** The default a field was declared with. *)
Definition declared_default (name : string) : option pyval :=
  match find (fun f => String.eqb (field_name f) name) SlurmHeader.fields with
  | Some f => field_default f
  | None => None
  end.

(** The directive line of an optional, as the specification words it:
    underscores of the name become hyphens. *)
Definition optional_directive (opt : string) (value : pyval) : string :=
  "#SBATCH --" ++ replace "_" "-" opt ++ "=" ++ py_format value.

(** The presence rule of the optional directives, at one header: the
    directive line of an optional is a line of the rendered header exactly
    when the configured value is not the declared default. *)
Definition optional_presence_rule (h : SlurmHeader.t) : Prop :=
  forall text opt value default,
    SlurmHeader.__str__ h = Ok text ->
    In opt SlurmHeader.optionals ->
    SlurmHeader.getattr h opt = Ok value ->
    declared_default opt = Some default ->
    (has_line text (optional_directive opt value) <-> value <> default).

(** The presence rule of the flags, at one header. *)
Definition flag_presence_rule (h : SlurmHeader.t) : Prop :=
  forall text,
    SlurmHeader.__str__ h = Ok text ->
    (has_line text "#SBATCH --exclusive" <-> SlurmHeader.exclusive h = true)
    /\ (has_line text "#SBATCH --requeue" <-> SlurmHeader.requeue h = true).

(** The string fields of a header. *)
Definition string_fields (h : SlurmHeader.t) : list string :=
  [ SlurmHeader.bash_path h; SlurmHeader.account h; SlurmHeader.partition h;
    SlurmHeader.qos h; SlurmHeader.job_name h; SlurmHeader.job_directory h;
    SlurmHeader.output h; SlurmHeader.error h; SlurmHeader.distribution h;
    SlurmHeader.hint h; SlurmHeader.mail_user h; SlurmHeader.mail_type h ].

(** A header whose values cannot be mistaken for directives: no string
    field holds a newline, and the interpreter path is not itself the text
    of a directive. *)
Definition plain_header (h : SlurmHeader.t) : bool :=
  forallb newline_free (string_fields h)
  && negb (String.prefix "SBATCH --" (SlurmHeader.bash_path h)).

(** The resolved path of an output or error pattern, as the specification
    words it. *)
Definition resolve_path (job_directory pattern : string) : string :=
  replace "%j" "${SLURM_JOB_ID}"
    (replace "%x" "${SLURM_JOB_NAME}" (job_directory ++ "/" ++ pattern)).

(** The closing block of the template: the output-file copy-back. *)
Definition output_block (output_file : string) : string :=
  "OUTPUT_FILE=" ++ output_file ++ "
cp ${OUTPUT_FILE} ${JOBDIR}/${OUTPUT_FILE}
".

(** *** Parameter expansion

    The shell replaces [${NAME}] by the value of the variable, and by
    nothing when the variable is unset. *)

Inductive expand_state : Type :=
| Literal
| Dollar
| Name (acc : string).

Fixpoint lookup (env : list (string * string)) (name : string) : string :=
  match env with
  | [] => ""
  | (k, v) :: rest => if String.eqb k name then v else lookup rest name
  end.

(** Expansion of the [${NAME}] parameters of a text. *)
Fixpoint expand_from (env : list (string * string)) (st : expand_state)
    (s : string) : string :=
  match s with
  | EmptyString =>
      match st with
      | Literal => ""
      | Dollar => "$"
      | Name acc => "${" ++ acc
      end
  | String c rest =>
      match st with
      | Literal =>
          if Ascii.eqb c "$" then expand_from env Dollar rest
          else String c (expand_from env Literal rest)
      | Dollar =>
          if Ascii.eqb c "{" then expand_from env (Name "") rest
          else if Ascii.eqb c "$"
               then String "$" (expand_from env Dollar rest)
               else String "$" (String c (expand_from env Literal rest))
      | Name acc =>
          if Ascii.eqb c "}"
          then lookup env acc ++ expand_from env Literal rest
          else expand_from env (Name (acc ++ String c "")) rest
      end
  end.

Definition shell_expand (env : list (string * string)) (s : string) : string :=
  expand_from env Literal s.

(** The cores the CPU map is meant to hold: the first [l3cores] cores of
    every group of [l3size] cores of the node, in order. *)
Definition cpu_map_select (l3cores l3size nodesize : Z) : list Z :=
  filter (fun i => (i mod l3size) <? l3cores) (range nodesize).

(** [any(val > 0 ...)] and [all(val > 0 ...)] over the affinity triple. *)
Definition any_positive (s : SrunCall.t) : Prop :=
  0 < SrunCall.l3cores s \/ 0 < SrunCall.l3size s \/ 0 < SrunCall.nodesize s.

Definition all_positive (s : SrunCall.t) : Prop :=
  0 < SrunCall.l3cores s /\ 0 < SrunCall.l3size s /\ 0 < SrunCall.nodesize s.

(** The header text appended for one optional, given its default. *)
Definition optional_text (opt : string) (value default : pyval) : string :=
  if negb (py_eqb value default)
  then SlurmHeader.optional_block opt value else "".

(** The header text appended by the loop over the optionals. *)
Definition optionals_text (self : SlurmHeader.t) : string :=
  optional_text "switches" (PyInt (SlurmHeader.switches self)) (PyInt (-1))
  ++ optional_text "distribution"
       (PyStr (SlurmHeader.distribution self)) (PyStr "")
  ++ optional_text "hint" (PyStr (SlurmHeader.hint self)) (PyStr "")
  ++ optional_text "mail_user" (PyStr (SlurmHeader.mail_user self)) (PyStr "")
  ++ optional_text "mail_type" (PyStr (SlurmHeader.mail_type self)) (PyStr "").

(** The header text appended by the loop over the flags. *)
Definition flags_text (self : SlurmHeader.t) : string :=
  (if SlurmHeader.exclusive self
   then SlurmHeader.flag_block "exclusive" else "")
  ++ (if SlurmHeader.requeue self
      then SlurmHeader.flag_block "requeue" else "").

(** The last character of a string, and the string without it. *)
Fixpoint last_char (s : string) : option ascii :=
  match s with
  | EmptyString => None
  | String c EmptyString => Some c
  | String _ rest => last_char rest
  end.

Fixpoint drop_last (s : string) : string :=
  match s with
  | EmptyString => EmptyString
  | String _ EmptyString => EmptyString
  | String c rest => String c (drop_last rest)
  end.

(** The job directory as [SlurmHeader.__str__] uses it: without its
    trailing slash, if it has one. *)
Definition stripped (job_directory : string) : string :=
  match last_char job_directory with
  | Some c => if Ascii.eqb c "/" then drop_last job_directory
              else job_directory
  | None => job_directory
  end.

(** The whole header text, for a non-empty job directory. *)
Definition header_text (self : SlurmHeader.t) : string :=
  (SlurmHeader.mandatory_block self (stripped (SlurmHeader.job_directory self))
   ++ optionals_text self) ++ flags_text self.

(** *** The header, line by line *)

Definition time_text (self : SlurmHeader.t) : string :=
  let '(hh, mm, ss) := SlurmHeader.time self in
  join ":" (map fmt02 [hh; mm; ss]).

(** The lines of the mandatory block. *)
Definition mandatory_lines (self : SlurmHeader.t) (job_directory : string)
    : list string :=
  [ "#" ++ SlurmHeader.bash_path self;
    "#";
    "#SBATCH --account=" ++ SlurmHeader.account self;
    "#SBATCH --partition=" ++ SlurmHeader.partition self;
    "#SBATCH --qos=" ++ SlurmHeader.qos self;
    "#";
    "#SBATCH --job-name=" ++ SlurmHeader.job_name self;
    "#SBATCH --output=" ++ job_directory ++ "/" ++ SlurmHeader.output self;
    "#SBATCH --error=" ++ job_directory ++ "/" ++ SlurmHeader.error self;
    "#";
    "#SBATCH --nodes=" ++ str_int (SlurmHeader.nodes self);
    "#SBATCH --ntasks-per-node=" ++ str_int (SlurmHeader.ntasks_per_node self);
    "#";
    "#SBATCH --time=" ++ time_text self ].

(** The lines appended for one optional and for one flag. *)
Definition optional_lines (opt : string) (value default : pyval)
    : list string :=
  if negb (py_eqb value default)
  then ["#"; optional_directive opt value] else [].

Definition flag_lines (flag : string) (set : bool) : list string :=
  if set then ["#"; "#SBATCH --" ++ flag] else [].

Definition header_lines (self : SlurmHeader.t) : list string :=
  mandatory_lines self (stripped (SlurmHeader.job_directory self))
  ++ optional_lines "switches" (PyInt (SlurmHeader.switches self))
       (PyInt (-1))
  ++ optional_lines "distribution" (PyStr (SlurmHeader.distribution self))
       (PyStr "")
  ++ optional_lines "hint" (PyStr (SlurmHeader.hint self)) (PyStr "")
  ++ optional_lines "mail_user" (PyStr (SlurmHeader.mail_user self))
       (PyStr "")
  ++ optional_lines "mail_type" (PyStr (SlurmHeader.mail_type self))
       (PyStr "")
  ++ flag_lines "exclusive" (SlurmHeader.exclusive self)
  ++ flag_lines "requeue" (SlurmHeader.requeue self).

(** [dataclasses.replace(h, job_directory=d)]. *)
Definition with_job_directory (d : string) (h : SlurmHeader.t)
    : SlurmHeader.t :=
  {| SlurmHeader.account := SlurmHeader.account h;
     SlurmHeader.partition := SlurmHeader.partition h;
     SlurmHeader.qos := SlurmHeader.qos h;
     SlurmHeader.job_name := SlurmHeader.job_name h;
     SlurmHeader.output := SlurmHeader.output h;
     SlurmHeader.error := SlurmHeader.error h;
     SlurmHeader.nodes := SlurmHeader.nodes h;
     SlurmHeader.ntasks_per_node := SlurmHeader.ntasks_per_node h;
     SlurmHeader.time := SlurmHeader.time h;
     SlurmHeader.switches := SlurmHeader.switches h;
     SlurmHeader.distribution := SlurmHeader.distribution h;
     SlurmHeader.hint := SlurmHeader.hint h;
     SlurmHeader.exclusive := SlurmHeader.exclusive h;
     SlurmHeader.requeue := SlurmHeader.requeue h;
     SlurmHeader.mail_user := SlurmHeader.mail_user h;
     SlurmHeader.mail_type := SlurmHeader.mail_type h;
     SlurmHeader.bash_path := SlurmHeader.bash_path h;
     SlurmHeader.job_directory := d |}.

(** [pat in s]: the pattern occurs in the text. *)
Fixpoint occurs (pat s : string) : bool :=
  String.prefix pat s
  || match s with
     | EmptyString => false
     | String _ rest => occurs pat rest
     end.

(** [c in s]. *)
Fixpoint has_char (c : ascii) (s : string) : bool :=
  match s with
  | EmptyString => false
  | String x rest => Ascii.eqb c x || has_char c rest
  end.

(** The two-character pattern [ab]. *)
Definition pair (a b : ascii) : string := String a (String b "").

(** *** Further vocabulary *)

(** [dataclasses.replace(s, args=a)]. *)
Definition with_args (a : string) (s : SingularityCall.t)
    : SingularityCall.t :=
  {| SingularityCall.container := SingularityCall.container s;
     SingularityCall.args := a;
     SingularityCall.bind_from := SingularityCall.bind_from s;
     SingularityCall.bind_to := SingularityCall.bind_to s;
     SingularityCall.home := SingularityCall.home s;
     SingularityCall.directory := SingularityCall.directory s;
     SingularityCall.setup_file := SingularityCall.setup_file s |}.

(** [int(s)] for a decimal numeral with an optional minus sign. *)
Definition parse_int (s : string) : option Z :=
  option_map Z.of_int (NilZero.int_of_string s).

(** Further configurations: a header with every optional at its default
    and no flag, one with fixed output and error file names, and a launcher
    with the affinity values at zero. *)
Module Inputs.

Definition header_of (output error distribution : string) (requeue : bool)
    : SlurmHeader.t :=
  {| SlurmHeader.account := "e781";
     SlurmHeader.partition := "standard";
     SlurmHeader.qos := "standard";
     SlurmHeader.job_name := "test_job";
     SlurmHeader.output := output;
     SlurmHeader.error := error;
     SlurmHeader.nodes := 1;
     SlurmHeader.ntasks_per_node := 2;
     SlurmHeader.time := (0, 5, 0);
     SlurmHeader.switches := -1;
     SlurmHeader.distribution := distribution;
     SlurmHeader.hint := "";
     SlurmHeader.exclusive := false;
     SlurmHeader.requeue := requeue;
     SlurmHeader.mail_user := "";
     SlurmHeader.mail_type := "";
     SlurmHeader.bash_path := "!/bin/bash";
     SlurmHeader.job_directory := "results" |}.

Definition header_minimal : SlurmHeader.t :=
  header_of "slurm-%x-%j.out" "slurm-%x-%j.out" "" false.

Definition header_fixed_names : SlurmHeader.t :=
  header_of "job.out" "job.err" "block:block" true.

Definition srun_zero : SrunCall.t :=
  {| SrunCall.l3cores := 0;
     SrunCall.l3size := 0;
     SrunCall.nodesize := 0;
     SrunCall.args := "--hint=nomultithread";
     SrunCall.xthi := false |}.

End Inputs.

(** *** What the affinity block does when the script runs

    The affinity block is shell text: comments, three assignments of
    numerals, and the assignment of [CPU_MAP] to a command substitution
    that runs a Python one-liner.  To say what the block computes, the
    fragment of the shell and of Python that it uses is given a semantics
    here: assignments and the expansion of [${NAME}] parameters for the
    shell; for Python a lexer, a parser and an evaluator of expressions
    made of names, numerals, strings, calls, attributes, [lambda], [%] and
    [<], with the built-ins [range], [filter], [map], [str] and
    [str.join].  [None] stands for an error or for text outside the
    fragment. *)

Definition is_digit (c : ascii) : bool :=
  (48 <=? nat_of_ascii c)%nat && (nat_of_ascii c <=? 57)%nat.

Definition is_alpha (c : ascii) : bool :=
  ((65 <=? nat_of_ascii c)%nat && (nat_of_ascii c <=? 90)%nat)
  || ((97 <=? nat_of_ascii c)%nat && (nat_of_ascii c <=? 122)%nat)
  || Ascii.eqb c "_".

Definition is_symbol (c : ascii) : bool :=
  existsb (Ascii.eqb c) ["("; ")"; ","; ":"; "."; "%"; "<"]%char.

Fixpoint all_digits (s : string) : bool :=
  match s with
  | EmptyString => true
  | String c rest => is_digit c && all_digits rest
  end.

(** **** Python: tokens *)

Inductive token : Type :=
| TName (x : string)
| TNum (digits : string)
| TStr (s : string)
| TSym (c : ascii).

Inductive lex_state : Type :=
| LIdle
| LName (acc : string)
| LNum (acc : string)
| LStr (acc : string).

(** The token that ends when the lexer leaves a state. *)
Definition flush (st : lex_state) : option (list token) :=
  match st with
  | LIdle => Some []
  | LName acc => Some [TName acc]
  | LNum acc => Some [TNum acc]
  | LStr _ => None
  end.

(** A character met between tokens. *)
Definition lex_idle (c : ascii) : option (list token * lex_state) :=
  if is_digit c then Some ([], LNum (String c ""))
  else if is_alpha c then Some ([], LName (String c ""))
  else if Ascii.eqb c " " then Some ([], LIdle)
  else if Ascii.eqb c "'" then Some ([], LStr "")
  else if is_symbol c then Some ([TSym c], LIdle)
  else None.

(** One character: the tokens it completes and the next state. *)
Definition lex_step (st : lex_state) (c : ascii)
    : option (list token * lex_state) :=
  match st with
  | LIdle => lex_idle c
  | LStr acc =>
      if Ascii.eqb c "'" then Some ([TStr acc], LIdle)
      else Some ([], LStr (acc ++ String c ""))
  | LName acc =>
      if is_alpha c || is_digit c then Some ([], LName (acc ++ String c ""))
      else match lex_idle c with
           | Some (ts, st') => Some (TName acc :: ts, st')
           | None => None
           end
  | LNum acc =>
      if is_digit c then Some ([], LNum (acc ++ String c ""))
      else if is_alpha c then None
      else match lex_idle c with
           | Some (ts, st') => Some (TNum acc :: ts, st')
           | None => None
           end
  end.

Fixpoint lex_run (st : lex_state) (s : string)
    : option (list token * lex_state) :=
  match s with
  | EmptyString => Some ([], st)
  | String c rest =>
      match lex_step st c with
      | Some (ts, st') =>
          match lex_run st' rest with
          | Some (ts', st'') => Some ((ts ++ ts')%list, st'')
          | None => None
          end
      | None => None
      end
  end.

Definition tokenize (s : string) : option (list token) :=
  match lex_run LIdle s with
  | Some (ts, st) =>
      match flush st with
      | Some last => Some (ts ++ last)%list
      | None => None
      end
  | None => None
  end.

(** **** Python: expressions *)

Inductive binop : Type := Mod | Lt.

#[warnings="-register-all"]
Inductive expr : Type :=
| EName (x : string)
| ENum (digits : string)
| EStr (s : string)
| EAttr (e : expr) (name : string)
| ECall (f : expr) (args : list expr)
| ELambda (x : string) (body : expr)
| EBin (op : binop) (l r : expr).

Definition is_sym (c : ascii) (t : token) : bool :=
  match t with
  | TSym c' => Ascii.eqb c c'
  | _ => false
  end.

(** A recursive-descent parser; [n] bounds the depth of the descent.
    lambda binds loosest, then [<], then [%], then calls and attributes. *)
Fixpoint parse_expr (n : nat) (ts : list token) {struct n}
    : option (expr * list token) :=
  match n with
  | O => None
  | S n =>
      match ts with
      | TName kw :: TName x :: t :: rest =>
          if String.eqb kw "lambda" then
            if is_sym ":" t then
              match parse_expr n rest with
              | Some (body, rest') => Some (ELambda x body, rest')
              | None => None
              end
            else None
          else parse_comparison n ts
      | _ => parse_comparison n ts
      end
  end

with parse_comparison (n : nat) (ts : list token) {struct n}
    : option (expr * list token) :=
  match n with
  | O => None
  | S n =>
      match parse_arith n ts with
      | Some (l, t :: rest) =>
          if is_sym "<" t then
            match parse_arith n rest with
            | Some (r, rest') => Some (EBin Lt l r, rest')
            | None => None
            end
          else Some (l, t :: rest)
      | other => other
      end
  end

with parse_arith (n : nat) (ts : list token) {struct n}
    : option (expr * list token) :=
  match n with
  | O => None
  | S n =>
      match parse_postfix n ts with
      | Some (l, rest) => parse_mods n l rest
      | None => None
      end
  end

with parse_mods (n : nat) (l : expr) (ts : list token) {struct n}
    : option (expr * list token) :=
  match n with
  | O => None
  | S n =>
      match ts with
      | t :: rest =>
          if is_sym "%" t then
            match parse_postfix n rest with
            | Some (r, rest') => parse_mods n (EBin Mod l r) rest'
            | None => None
            end
          else Some (l, ts)
      | [] => Some (l, ts)
      end
  end

with parse_postfix (n : nat) (ts : list token) {struct n}
    : option (expr * list token) :=
  match n with
  | O => None
  | S n =>
      match parse_atom n ts with
      | Some (a, rest) => parse_trailers n a rest
      | None => None
      end
  end

with parse_trailers (n : nat) (e : expr) (ts : list token) {struct n}
    : option (expr * list token) :=
  match n with
  | O => None
  | S n =>
      match ts with
      | TSym c :: rest =>
          if Ascii.eqb c "." then
            match rest with
            | TName x :: rest' => parse_trailers n (EAttr e x) rest'
            | _ => None
            end
          else if Ascii.eqb c "(" then
            match parse_args n rest with
            | Some (args, rest') => parse_trailers n (ECall e args) rest'
            | None => None
            end
          else Some (e, ts)
      | _ => Some (e, ts)
      end
  end

with parse_atom (n : nat) (ts : list token) {struct n}
    : option (expr * list token) :=
  match n with
  | O => None
  | S n =>
      match ts with
      | TName x :: rest =>
          if String.eqb x "lambda" then None else Some (EName x, rest)
      | TNum d :: rest => Some (ENum d, rest)
      | TStr s :: rest => Some (EStr s, rest)
      | TSym c :: rest =>
          if Ascii.eqb c "(" then
            match parse_expr n rest with
            | Some (e, t :: rest') =>
                if is_sym ")" t then Some (e, rest') else None
            | _ => None
            end
          else None
      | [] => None
      end
  end

with parse_args (n : nat) (ts : list token) {struct n}
    : option (list expr * list token) :=
  match n with
  | O => None
  | S n =>
      match ts with
      | t :: rest =>
          if is_sym ")" t then Some ([], rest)
          else
            match parse_expr n ts with
            | Some (e, t' :: rest') =>
                if is_sym "," t' then
                  match parse_args n rest' with
                  | Some (es, rest'') => Some (e :: es, rest'')
                  | None => None
                  end
                else if is_sym ")" t' then Some ([e], rest')
                else None
            | _ => None
            end
      | [] => None
      end
  end.

(** The whole token list as one expression. *)
Definition parse (ts : list token) : option expr :=
  match parse_expr (16 * length ts) ts with
  | Some (e, []) => Some e
  | _ => None
  end.

(** **** Python: values and evaluation *)

#[warnings="-register-all"]
Inductive value : Type :=
| VInt (z : Z)
| VBool (b : bool)
| VStr (s : string)
| VList (l : list value)
| VClosure (x : string) (body : expr) (env : list (string * value))
| VBuiltin (name : string)
| VJoin (sep : string).

Fixpoint map_m {A B : Type} (f : A -> option B) (l : list A)
    : option (list B) :=
  match l with
  | [] => Some []
  | x :: rest =>
      match f x, map_m f rest with
      | Some y, Some ys => Some (y :: ys)
      | _, _ => None
      end
  end.

Fixpoint filter_m {A : Type} (f : A -> option bool) (l : list A)
    : option (list A) :=
  match l with
  | [] => Some []
  | x :: rest =>
      match f x, filter_m f rest with
      | Some b, Some ys => Some (if b then x :: ys else ys)
      | _, _ => None
      end
  end.

Fixpoint lookup_value (env : list (string * value)) (x : string)
    : option value :=
  match env with
  | [] => None
  | (k, v) :: rest => if String.eqb k x then Some v else lookup_value rest x
  end.

Definition is_builtin (x : string) : bool :=
  existsb (String.eqb x) ["range"; "filter"; "map"; "str"].

(** The truth value of a result of the function given to [filter]. *)
Definition truthy (v : value) : bool :=
  match v with
  | VInt z => negb (z =? 0)
  | VBool b => b
  | VStr s => negb (String.eqb s "")
  | VList l => match l with [] => false | _ => true end
  | _ => true
  end.

(** [str(v)], for the values whose text does not depend on the run. *)
Definition to_str (v : value) : option string :=
  match v with
  | VInt z => Some (str_int z)
  | VBool true => Some "True"
  | VBool false => Some "False"
  | VStr s => Some s
  | _ => None
  end.

Definition as_str (v : value) : option string :=
  match v with
  | VStr s => Some s
  | _ => None
  end.

(** Evaluation and application; [n] bounds the depth of the recursion, as
    the interpreter's recursion limit does. *)
Fixpoint eval (n : nat) (env : list (string * value)) (e : expr) {struct n}
    : option value :=
  match n with
  | O => None
  | S n =>
      match e with
      | EName x =>
          match lookup_value env x with
          | Some v => Some v
          | None => if is_builtin x then Some (VBuiltin x) else None
          end
      | ENum d => option_map VInt (parse_int d)
      | EStr s => Some (VStr s)
      | EAttr e' x =>
          match eval n env e' with
          | Some (VStr sep) =>
              if String.eqb x "join" then Some (VJoin sep) else None
          | _ => None
          end
      | ECall f args =>
          match eval n env f with
          | Some fv =>
              match map_m (eval n env) args with
              | Some avs => apply n fv avs
              | None => None
              end
          | None => None
          end
      | ELambda x body => Some (VClosure x body env)
      | EBin op l r =>
          match eval n env l, eval n env r with
          | Some (VInt a), Some (VInt b) =>
              match op with
              | Mod => if b =? 0 then None else Some (VInt (a mod b))
              | Lt => Some (VBool (a <? b))
              end
          | _, _ => None
          end
      end
  end

with apply (n : nat) (f : value) (args : list value) {struct n}
    : option value :=
  match n with
  | O => None
  | S n =>
      match f, args with
      | VClosure x body env, [a] => eval n ((x, a) :: env) body
      | VBuiltin name, [VInt k] =>
          if String.eqb name "range" then Some (VList (map VInt (range k)))
          else if String.eqb name "str" then Some (VStr (str_int k))
          else None
      | VBuiltin name, [v] =>
          if String.eqb name "str" then option_map VStr (to_str v) else None
      | VBuiltin name, [g; VList l] =>
          if String.eqb name "map"
          then option_map VList (map_m (fun x => apply n g [x]) l)
          else if String.eqb name "filter"
          then option_map VList
                 (filter_m (fun x => option_map truthy (apply n g [x])) l)
          else None
      | VJoin sep, [VList l] =>
          option_map (fun ss => VStr (join sep ss)) (map_m as_str l)
      | _, _ => None
      end
  end.

Definition recursion_limit : nat := 1000.

(** What [python3 -c program] writes to its standard output, for a program
    that is one call of [print] on one argument. *)
Definition python_stdout (program : string) : option string :=
  match tokenize program with
  | Some ts =>
      match parse ts with
      | Some (ECall (EName f) [e]) =>
          if String.eqb f "print" then
            match eval recursion_limit [] e with
            | Some v => option_map (fun s => s ++ String nl "") (to_str v)
            | None => None
            end
          else None
      | _ => None
      end
  | None => None
  end.

(** The expression printed by the program of [cpu_map_cmd], with the
    numerals [a], [b], [c] in its three holes. *)
Definition cpu_map_expr (a b c : string) : expr :=
  ECall (EAttr (EStr ",") "join")
    [ECall (EName "map")
       [EName "str";
        ECall (EName "filter")
          [ELambda "i" (EBin Lt (EBin Mod (EName "i") (ENum a)) (ENum b));
           ECall (EName "range") [ENum c]]]].


(** **** The shell: assignments and command substitution *)

(** [NAME=WORD]: the name and the word of an assignment. *)
Fixpoint split_assignment (line : string) : option (string * string) :=
  match line with
  | EmptyString => None
  | String c rest =>
      if Ascii.eqb c "=" then Some ("", rest)
      else if is_alpha c || is_digit c then
        match split_assignment rest with
        | Some (name, word) => Some (String c name, word)
        | None => None
        end
      else None
  end.

Fixpoint strip_prefix (p s : string) : option string :=
  match p, s with
  | EmptyString, _ => Some s
  | String a p', String b s' =>
      if Ascii.eqb a b then strip_prefix p' s' else None
  | String _ _, EmptyString => None
  end.

Fixpoint strip_suffix (suffix s : string) : option string :=
  if String.eqb s suffix then Some ""
  else match s with
       | EmptyString => None
       | String c rest => option_map (String c) (strip_suffix suffix rest)
       end.

(** A word that stands for itself: no quoting, no expansion. *)
Definition is_plain (c : ascii) : bool :=
  is_alpha c || is_digit c
  || existsb (Ascii.eqb c) ["-"; "."; ","; ":"; "/"; "+"]%char.

Fixpoint all_plain (s : string) : bool :=
  match s with
  | EmptyString => true
  | String c rest => is_plain c && all_plain rest
  end.

(** Text that, between double quotes, is changed by parameter expansion
    only: no double quote, backslash or backquote. *)
Fixpoint quotable (s : string) : bool :=
  match s with
  | EmptyString => true
  | String c rest =>
      negb (Ascii.eqb c (ascii_of_nat 34)) && negb (Ascii.eqb c "\")
      && negb (Ascii.eqb c "`") && quotable rest
  end.

(** Command substitution drops the newlines that end the output. *)
Fixpoint strip_newlines (s : string) : string :=
  match s with
  | EmptyString => EmptyString
  | String c rest =>
      match strip_newlines rest with
      | EmptyString => if Ascii.eqb c nl then EmptyString else String c ""
      | kept => String c kept
      end
  end.

(** The value of the word of an assignment: a plain word, or the output of
    [$(python3 -c "program")] with the parameters of the program
    expanded. *)
Definition word_value (env : list (string * string)) (word : string)
    : option string :=
  if all_plain word then Some word
  else
    match strip_prefix ("$(python3 -c " ++ dq) word with
    | Some quoted =>
        match strip_suffix (dq ++ ")") quoted with
        | Some program =>
            if quotable program
            then option_map strip_newlines
                   (python_stdout (shell_expand env program))
            else None
        | None => None
        end
    | None => None
    end.

(** One line: empty, a comment, or an assignment. *)
Definition shell_line (env : list (string * string)) (line : string)
    : option (list (string * string)) :=
  match line with
  | EmptyString => Some env
  | String c _ =>
      if Ascii.eqb c "#" then Some env
      else
        match split_assignment line with
        | Some (name, word) =>
            match word_value env word with
            | Some v => Some ((name, v) :: env)
            | None => None
            end
        | None => None
        end
  end.

Fixpoint shell_lines (env : list (string * string)) (ls : list string)
    : option (list (string * string)) :=
  match ls with
  | [] => Some env
  | l :: rest =>
      match shell_line env l with
      | Some env' => shell_lines env' rest
      | None => None
      end
  end.

(** The variables a text of such lines leaves behind. *)
Definition shell_run (text : string) : option (list (string * string)) :=
  shell_lines [] (lines text).

(** The value [CPU_MAP] has after the affinity block of a launcher. *)
Definition cpu_map_of (s : SrunCall.t) : option string :=
  option_map (fun env => lookup env "CPU_MAP")
    (shell_run (SrunCall.affinity_block s)).

(** * Properties *)

(** ** Strings *)

Lemma append_assoc (a b c : string) : (a ++ b) ++ c = a ++ (b ++ c).
Proof. induction a as [|x a IH]; simpl; [reflexivity | now rewrite IH]. Qed.

Lemma append_nil_r (a : string) : a ++ "" = a.
Proof. induction a as [|x a IH]; simpl; [reflexivity | now rewrite IH]. Qed.

Lemma length_append (a b : string) :
  String.length (a ++ b) = (String.length a + String.length b)%nat.
Proof. induction a as [|x a IH]; simpl; [reflexivity | now rewrite IH]. Qed.

Lemma get_last_char (s : string) :
  s <> "" -> String.get (Nat.pred (String.length s)) s = last_char s.
Proof.
  induction s as [|a s IH]; [congruence|]. intros _.
  destruct s as [|b s]; [reflexivity|].
  change (last_char (String a (String b s))) with (last_char (String b s)).
  rewrite <- IH by discriminate. reflexivity.
Qed.

Lemma last_char_nonempty (s : string) :
  s <> "" -> exists c, last_char s = Some c.
Proof.
  induction s as [|a s IH]; [congruence|]. intros _.
  destruct s as [|b s]; [now exists a|].
  destruct IH as [c Hc]; [discriminate|]. now exists c.
Qed.

Lemma substring_drop_last (s : string) :
  String.substring 0 (Nat.pred (String.length s)) s = drop_last s.
Proof.
  induction s as [|a s IH]; [reflexivity|].
  destruct s as [|b s]; [reflexivity|].
  change (Nat.pred (String.length (String a (String b s))))
    with (S (Nat.pred (String.length (String b s)))).
  change (String.substring 0 (S (Nat.pred (String.length (String b s))))
            (String a (String b s)))
    with (String a (String.substring 0 (Nat.pred (String.length (String b s)))
                      (String b s))).
  rewrite IH. reflexivity.
Qed.

(** [s[-1]] raises exactly on the empty string. *)
Lemma str_getitem_last (s : string) :
  str_getitem s (-1)
  = match last_char s with Some c => Ok c | None => Raise IndexError end.
Proof.
  destruct s as [|a s]; [reflexivity|].
  set (t := String a s).
  assert (Hl : (0 < String.length t)%nat) by (subst t; simpl; lia).
  unfold str_getitem, str_len. change (-1 <? 0) with true. cbv iota.
  replace (-1 + Z.of_nat (String.length t) <? 0) with false
    by (symmetry; apply Z.ltb_ge; lia).
  replace (Z.of_nat (String.length t) <=? -1 + Z.of_nat (String.length t))
    with false by (symmetry; apply Z.leb_gt; lia).
  cbn [orb].
  replace (Z.to_nat (-1 + Z.of_nat (String.length t)))
    with (Nat.pred (String.length t)) by lia.
  rewrite get_last_char by (subst t; discriminate).
  destruct (last_char_nonempty t) as [c Hc]; [subst t; discriminate|].
  now rewrite Hc.
Qed.

(** [s[:-1]] drops the last character. *)
Lemma str_slice_to_last (s : string) : str_slice_to s (-1) = drop_last s.
Proof.
  unfold str_slice_to, str_len. change (-1 <? 0) with true. cbv iota.
  replace (Z.to_nat (Z.max 0 (-1 + Z.of_nat (String.length s))))
    with (Nat.pred (String.length s)) by lia.
  apply substring_drop_last.
Qed.

Lemma last_char_snoc (d : string) (c : ascii) :
  last_char (d ++ String c "") = Some c.
Proof.
  induction d as [|a d IH]; [reflexivity|].
  cbn [append last_char]. destruct (d ++ String c "") eqn:E; [|exact IH].
  destruct d; discriminate.
Qed.

Lemma drop_last_snoc (d : string) (c : ascii) :
  drop_last (d ++ String c "") = d.
Proof.
  induction d as [|a d IH]; [reflexivity|].
  cbn [append drop_last]. destruct (d ++ String c "") eqn:E.
  - destruct d; discriminate.
  - now rewrite IH.
Qed.

(** ** [str.replace] *)

Lemma replace_from_skip (old new t s : string) :
  replace_from old new (String.length t) (t ++ s) = replace_from old new O s.
Proof.
  induction t as [|c t IH]; [reflexivity|].
  cbn [String.length append replace_from]. exact IH.
Qed.

Lemma prefix_append (old s : string) : String.prefix old (old ++ s) = true.
Proof.
  induction old as [|c old IH]; cbn [append String.prefix].
  - now destruct s.
  - destruct (ascii_dec c c); [exact IH | congruence].
Qed.

Lemma prefix_split (old s : string) :
  String.prefix old s = true -> exists s', s = old ++ s'.
Proof.
  revert s. induction old as [|c old IH]; intros s H.
  - now exists s.
  - destruct s as [|b s]; cbn [String.prefix] in H; [discriminate|].
    destruct (ascii_dec c b) as [<-|]; [|discriminate].
    destruct (IH s H) as [s' ->]. now exists s'.
Qed.

(** An occurrence at the front is replaced, and the scan resumes after it. *)
Lemma replace_match (old new s : string) :
  old <> "" -> replace old new (old ++ s) = new ++ replace old new s.
Proof.
  intros Ho. destruct old as [|c old]; [congruence|].
  unfold replace. cbn [append].
  change (replace_from (String c old) new 0 (String c (old ++ s)))
    with (if String.prefix (String c old) (String c (old ++ s))
          then new ++ replace_from (String c old) new
                        (Nat.pred (String.length (String c old))) (old ++ s)
          else String c (replace_from (String c old) new O (old ++ s))).
  change (String c (old ++ s)) with (String c old ++ s) at 1.
  rewrite prefix_append. cbn [String.length Nat.pred].
  now rewrite replace_from_skip.
Qed.

(** A character that does not start an occurrence is kept. *)
Lemma replace_keep (old new : string) (c : ascii) (s : string) :
  old <> "" -> String.prefix old (String c s) = false ->
  replace old new (String c s) = String c (replace old new s).
Proof.
  intros Ho Hp. destruct old as [|b old]; [congruence|].
  unfold replace. cbn [replace_from]. now rewrite Hp.
Qed.

Lemma replace_nil (old new : string) : old <> "" -> replace old new "" = "".
Proof. intros Ho. destruct old; [congruence | reflexivity]. Qed.

(** Induction along the scan of [replace]. *)
Lemma replace_scan_ind (old : string) (Ho : old <> "")
    (P : string -> Prop) :
  P "" ->
  (forall s, P s -> P (old ++ s)) ->
  (forall c s, String.prefix old (String c s) = false -> P s ->
               P (String c s)) ->
  forall s, P s.
Proof.
  intros Hnil Hmatch Hkeep s.
  assert (Hlen : (0 < String.length old)%nat)
    by (destruct old; [congruence | cbn; lia]).
  assert (H : forall n s, (String.length s <= n)%nat -> P s).
  { clear s. induction n as [|n IH]; intros s Hl.
    - destruct s; [exact Hnil | cbn in Hl; lia].
    - destruct s as [|c s]; [exact Hnil|].
      destruct (String.prefix old (String c s)) eqn:Hp.
      + destruct (prefix_split _ _ Hp) as [s' E]. rewrite E.
        apply Hmatch, IH.
        apply (f_equal String.length) in E. rewrite length_append in E.
        cbn [String.length] in *. lia.
      + apply Hkeep; [exact Hp|]. apply IH. cbn [String.length] in Hl. lia. }
  now apply (H (String.length s)).
Qed.


(** *** Two-character placeholders *)

Section Placeholder.

Variables (a b : ascii) (new : string).
Hypothesis new_nonempty : new <> "".
Hypothesis new_without_a : has_char a new = false.

Lemma occurs_cons (pat : string) (c : ascii) (s : string) :
  occurs pat (String c s) = String.prefix pat (String c s) || occurs pat s.
Proof. reflexivity. Qed.

Lemma prefix_pair (x y c : ascii) (s : string) :
  String.prefix (pair x y) (String c s)
  = Ascii.eqb x c && String.prefix (String y "") s.
Proof.
  unfold pair. cbn [String.prefix].
  destruct (ascii_dec x c) as [->|n].
  - now rewrite Ascii.eqb_refl.
  - apply Ascii.eqb_neq in n. now rewrite n.
Qed.

Lemma prefix_single_append (y : ascii) (s r : string) :
  s <> "" ->
  String.prefix (String y "") (s ++ r) = String.prefix (String y "") s.
Proof.
  intros Hs. destruct s as [|c s]; [congruence|]. cbn [append String.prefix].
  destruct (ascii_dec y c); [|reflexivity]. now destruct (s ++ r), s.
Qed.

(** Text without [a] in front of a text without the pattern has no
    occurrence of it. *)
Lemma occurs_pair_append (y : ascii) (r : string) :
  occurs (pair a y) r = false -> occurs (pair a y) (new ++ r) = false.
Proof.
  intros Hr. clear new_nonempty. revert new_without_a.
  induction new as [|c n IH]; [intros _; exact Hr|].
  cbn [has_char append]. intros H. apply orb_false_elim in H.
  destruct H as [Hc Hn]. rewrite occurs_cons, prefix_pair, Hc.
  cbn [andb orb]. now apply IH.
Qed.

Lemma occurs_append_tail (pat s r : string) :
  occurs pat (s ++ r) = false -> occurs pat r = false.
Proof.
  induction s as [|c s IH]; [auto|]. cbn [append]. rewrite occurs_cons.
  intros H. apply orb_false_elim in H. now apply IH.
Qed.

(** Replacing [ab] by [new] leaves no [ab], provided [new] does not begin
    with [b]. *)
Lemma replace_removes_pair (s : string) :
  String.prefix (String b "") new = false ->
  occurs (pair a b) (replace (pair a b) new s) = false
  /\ (String.prefix (String b "") (replace (pair a b) new s) = true ->
      String.prefix (String b "") s = true).
Proof.
  intros Hb. assert (Ho : pair a b <> "") by discriminate.
  induction s as [|s IH|c s Hp IH] using (replace_scan_ind (pair a b) Ho).
  - rewrite replace_nil by exact Ho. split; [reflexivity | auto].
  - rewrite replace_match by exact Ho. destruct IH as [IH _]. split.
    + now apply occurs_pair_append.
    + rewrite prefix_single_append by exact new_nonempty. congruence.
  - rewrite replace_keep by assumption. destruct IH as [IH1 IH2]. split.
    + rewrite occurs_cons, IH1, prefix_pair, orb_false_r.
      rewrite prefix_pair in Hp.
      destruct (Ascii.eqb a c); [|reflexivity]. cbn [andb] in *.
      destruct (String.prefix (String b "") (replace (pair a b) new s));
        [|reflexivity].
      rewrite IH2 in Hp by reflexivity. discriminate.
    + intros H. cbn [String.prefix] in *.
      destruct (ascii_dec b c); [|discriminate]. now destruct s.
Qed.

(** Replacing [ab] by [new] creates no [ay], provided [new] does not begin
    with [y]. *)
Lemma replace_preserves_no_pair (y : ascii) (s : string) :
  String.prefix (String y "") new = false ->
  occurs (pair a y) s = false ->
  occurs (pair a y) (replace (pair a b) new s) = false
  /\ (String.prefix (String y "") (replace (pair a b) new s) = true ->
      String.prefix (String y "") s = true).
Proof.
  intros Hy. assert (Ho : pair a b <> "") by discriminate.
  induction s as [|s IH|c s Hp IH] using (replace_scan_ind (pair a b) Ho);
    intros Hs.
  - rewrite replace_nil by exact Ho. split; [reflexivity | auto].
  - rewrite replace_match by exact Ho.
    destruct (IH (occurs_append_tail _ _ _ Hs)) as [IH1 _]. split.
    + now apply occurs_pair_append.
    + rewrite prefix_single_append by exact new_nonempty. congruence.
  - rewrite replace_keep by assumption.
    rewrite occurs_cons in Hs. apply orb_false_elim in Hs.
    destruct Hs as [Hs1 Hs2]. destruct (IH Hs2) as [IH1 IH2]. split.
    + rewrite occurs_cons, IH1, prefix_pair, orb_false_r.
      rewrite prefix_pair in Hs1.
      destruct (Ascii.eqb a c); [|reflexivity]. cbn [andb] in *.
      destruct (String.prefix (String y "") (replace (pair a b) new s));
        [|reflexivity].
      rewrite IH2 in Hs1 by reflexivity. discriminate.
    + intros H. cbn [String.prefix] in *.
      destruct (ascii_dec y c); [|discriminate]. now destruct s.
Qed.

End Placeholder.

(** No placeholder is left in a resolved path. *)
Lemma resolve_path_without_placeholders (job_directory pattern : string) :
  occurs "%x" (resolve_path job_directory pattern) = false
  /\ occurs "%j" (resolve_path job_directory pattern) = false.
Proof.
  unfold resolve_path. split.
  - apply (replace_preserves_no_pair "%" "j" "${SLURM_JOB_ID}");
      [discriminate | reflexivity | reflexivity |].
    apply (replace_removes_pair "%" "x" "${SLURM_JOB_NAME}");
      [discriminate | reflexivity | reflexivity].
  - apply (replace_removes_pair "%" "j" "${SLURM_JOB_ID}");
      [discriminate | reflexivity | reflexivity].
Qed.

(** ** The header renderer, in closed form *)

Lemma optionals_loop_step self opt rest d0 header v d :
  SlurmHeader.getattr self opt = Ok v ->
  SlurmHeader.find_default SlurmHeader.fields opt d0 = Some (Some d) ->
  SlurmHeader.optionals_loop self SlurmHeader.fields (opt :: rest) d0 header
  = SlurmHeader.optionals_loop self SlurmHeader.fields rest (Some (Some d))
      (header ++ optional_text opt v d).
Proof.
  intros Hv Hd. cbn [SlurmHeader.optionals_loop]. rewrite Hv. cbn [bind].
  rewrite Hd. cbn [read_local bind py_ne_default]. unfold optional_text.
  destruct (negb (py_eqb v d)); [reflexivity | now rewrite append_nil_r].
Qed.

(** The local [default] is bound at every comparison, and the loop appends
    the blocks of the optionals that differ from their defaults. *)
Lemma optionals_loop_eq self header :
  SlurmHeader.optionals_loop self SlurmHeader.fields SlurmHeader.optionals
    None header
  = Ok (header ++ optionals_text self).
Proof.
  unfold SlurmHeader.optionals, optionals_text.
  repeat (erewrite optionals_loop_step; [ | reflexivity | reflexivity ]).
  cbn [SlurmHeader.optionals_loop]. now rewrite !append_assoc.
Qed.

Lemma flags_loop_eq self header :
  SlurmHeader.flags_loop self SlurmHeader.flags header
  = Ok (header ++ flags_text self).
Proof.
  unfold SlurmHeader.flags, flags_text. cbn [SlurmHeader.flags_loop].
  change (SlurmHeader.getattr self "exclusive")
    with (Ok (PyBool (SlurmHeader.exclusive self))).
  change (SlurmHeader.getattr self "requeue")
    with (Ok (PyBool (SlurmHeader.requeue self))).
  cbn [bind py_truthy].
  destruct (SlurmHeader.exclusive self), (SlurmHeader.requeue self);
    now rewrite ?append_assoc, ?append_nil_r.
Qed.

Lemma header_str_eq (h : SlurmHeader.t) :
  SlurmHeader.__str__ h
  = match last_char (SlurmHeader.job_directory h) with
    | Some _ => Ok (header_text h)
    | None => Raise IndexError
    end.
Proof.
  unfold SlurmHeader.__str__. rewrite str_getitem_last.
  destruct (last_char (SlurmHeader.job_directory h)) as [c|] eqn:E;
    [|reflexivity].
  cbn [bind]. rewrite optionals_loop_eq. cbn [bind]. rewrite flags_loop_eq.
  unfold header_text, stripped. rewrite E, str_slice_to_last. reflexivity.
Qed.

Lemma last_char_none (s : string) : last_char s = None <-> s = "".
Proof.
  split; [|now intros ->].
  destruct s as [|a s]; [reflexivity|]. intros H.
  destruct (last_char_nonempty (String a s)) as [c Hc]; [discriminate|].
  congruence.
Qed.

Lemma header_str_nonempty (h : SlurmHeader.t) :
  SlurmHeader.job_directory h <> "" ->
  SlurmHeader.__str__ h = Ok (header_text h).
Proof.
  intros Hd. rewrite header_str_eq.
  destruct (last_char (SlurmHeader.job_directory h)) eqn:E; [reflexivity|].
  now apply last_char_none in E.
Qed.

Lemma header_str_empty (h : SlurmHeader.t) :
  SlurmHeader.job_directory h = "" ->
  SlurmHeader.__str__ h = Raise IndexError.
Proof. intros Hd. rewrite header_str_eq, Hd. reflexivity. Qed.

(** ** C9: the empty job directory *)

(** C9. Rendering a header raises IndexError, at the test for a trailing
    slash, exactly when [job_directory] is the empty string (its declared
    default); it returns a text exactly when [job_directory] is non-empty. *)
Theorem header_str_fails_iff_empty_job_directory (h : SlurmHeader.t) :
  (SlurmHeader.__str__ h = Raise IndexError
   <-> SlurmHeader.job_directory h = "")
  /\ ((exists text, SlurmHeader.__str__ h = Ok text)
      <-> SlurmHeader.job_directory h <> "")
  /\ declared_default "job_directory" = Some (PyStr "").
Proof.
  split; [|split; [|reflexivity]].
  - split; [|apply header_str_empty].
    intros H. destruct (String.eqb_spec (SlurmHeader.job_directory h) "")
      as [E|E]; [exact E|].
    rewrite header_str_nonempty in H by exact E. discriminate.
  - split.
    + intros [text H] E. rewrite header_str_empty in H by exact E.
      discriminate.
    + intros E. exists (header_text h). now apply header_str_nonempty.
Qed.

(** ** C8 and C10: the container arguments *)

Lemma full_args_no_home (s : SingularityCall.t) :
  SingularityCall.home s = "" ->
  SingularityCall.full_args s = Raise UnboundLocalError.
Proof.
  intros H. unfold SingularityCall.full_args. rewrite H.
  cbn [String.eqb negb].
  destruct (String.eqb (SingularityCall.bind_from s) "");
    destruct (String.eqb (SingularityCall.bind_to s) ""); reflexivity.
Qed.

(** C8. With [home] empty (its declared default), [full_args] raises
    UnboundLocalError whatever [bind_from] and [bind_to] are, and no script
    is composed with such a container configuration: the call raises
    (IndexError from the header when the job directory is empty too,
    UnboundLocalError otherwise). *)
Theorem full_args_unbound_without_home (s : SingularityCall.t) :
  SingularityCall.home s = "" ->
  SingularityCall.full_args s = Raise UnboundLocalError
  /\ forall header python srun script_name,
       generate_submission_script header python srun s script_name
       = Raise (if String.eqb (SlurmHeader.job_directory header) ""
                then IndexError else UnboundLocalError).
Proof.
  intros H. split; [now apply full_args_no_home|].
  intros header python srun script_name. unfold generate_submission_script.
  destruct (String.eqb_spec (SlurmHeader.job_directory header) "") as [E|E].
  - rewrite header_str_empty by exact E. reflexivity.
  - rewrite header_str_nonempty by exact E. cbn [bind].
    rewrite full_args_no_home by exact H. reflexivity.
Qed.

(** C10. With a home, no bind source and a bind destination, the
    destination is appended straight onto the home argument. *)
Theorem full_args_home_and_bind_to (s : SingularityCall.t) :
  SingularityCall.home s <> "" ->
  SingularityCall.bind_from s = "" ->
  SingularityCall.bind_to s <> "" ->
  SingularityCall.full_args s
  = Ok ("--home " ++ SingularityCall.home s ++ ":" ++ SingularityCall.bind_to s).
Proof.
  intros Hh Hf Ht. unfold SingularityCall.full_args. rewrite Hf.
  apply String.eqb_neq in Hh, Ht. rewrite Hh, Ht.
  cbn. reflexivity.
Qed.

(** ** C2: the affinity triple *)

Lemma srun_str_cases (s : SrunCall.t) :
  (all_positive s /\
   SrunCall.__str__ s
   = Ok (SrunCall.affinity_block s
         ++ SrunCall.srun_block
              (SrunCall.args s ++ " --cpu_bind=map_cpu:${CPU_MAP}")))
  \/ (~ any_positive s /\
      SrunCall.__str__ s = Ok (SrunCall.srun_block (SrunCall.args s)))
  \/ (any_positive s /\ ~ all_positive s /\
      SrunCall.__str__ s = Raise (ValueError SrunCall.must_set_all_msg)).
Proof.
  unfold SrunCall.__str__, any_positive, all_positive.
  cbn [existsb forallb]. rewrite !Z.gtb_ltb.
  destruct (Z.ltb_spec 0 (SrunCall.l3cores s));
    destruct (Z.ltb_spec 0 (SrunCall.l3size s));
    destruct (Z.ltb_spec 0 (SrunCall.nodesize s));
    cbn [orb andb negb append];
    first [ left; split; [lia | reflexivity]
          | right; left; split; [lia | reflexivity]
          | right; right; split; [lia | split; [lia | reflexivity]] ].
Qed.

(** C2. Rendering an SrunCall raises the ValueError whose message begins
    "Must set all of" exactly when some value of the affinity triple is
    positive and not all three are; it returns a text exactly when none is
    positive or all three are. *)
Theorem srun_str_raises_iff_partial_triple (s : SrunCall.t) :
  (SrunCall.__str__ s = Raise (ValueError SrunCall.must_set_all_msg)
   <-> any_positive s /\ ~ all_positive s)
  /\ ((exists text, SrunCall.__str__ s = Ok text)
      <-> ~ any_positive s \/ all_positive s)
  /\ String.prefix "Must set all of" SrunCall.must_set_all_msg = true.
Proof.
  split; [|split; [|reflexivity]].
  - destruct (srun_str_cases s) as [[Ha E]|[[Hn E]|[Ha [Hn E]]]]; rewrite E;
      split; try discriminate; try tauto.
  - destruct (srun_str_cases s) as [[Ha E]|[[Hn E]|[Ha [Hn E]]]]; rewrite E;
      split; try tauto; try (intros _; eexists; reflexivity).
    intros [text H]; discriminate.
Qed.

(** ** The selection of the CPU map *)

Lemma in_range (n i : Z) : In i (range n) <-> 0 <= i < n.
Proof.
  unfold range. rewrite in_map_iff. split.
  - intros [k [<- Hk]]. apply in_seq in Hk. lia.
  - intros Hi. exists (Z.to_nat i). split; [lia|]. apply in_seq. lia.
Qed.

Lemma sorted_of_nat_seq (len start : nat) :
  StronglySorted Z.lt (map Z.of_nat (seq start len)).
Proof.
  revert start. induction len as [|len IH]; intros start; cbn [seq map].
  - constructor.
  - constructor; [apply IH|].
    apply Forall_forall. intros y Hy. apply in_map_iff in Hy.
    destruct Hy as [k [<- Hk]]. apply in_seq in Hk. lia.
Qed.

Lemma sorted_filter (f : Z -> bool) (l : list Z) :
  StronglySorted Z.lt l -> StronglySorted Z.lt (filter f l).
Proof.
  induction 1 as [|a l Hs IH Ha]; cbn [filter]; [constructor|].
  destruct (f a); [|exact IH].
  constructor; [exact IH|].
  rewrite Forall_forall in *. intros y Hy. apply filter_In in Hy.
  now apply Ha.
Qed.

Lemma in_cpu_map_select (l3cores l3size nodesize i : Z) :
  In i (cpu_map_select l3cores l3size nodesize)
  <-> 0 <= i < nodesize /\ i mod l3size < l3cores.
Proof.
  unfold cpu_map_select. rewrite filter_In, in_range, Z.ltb_lt. tauto.
Qed.

Lemma sorted_cpu_map_select (l3cores l3size nodesize : Z) :
  StronglySorted Z.lt (cpu_map_select l3cores l3size nodesize).
Proof. apply sorted_filter, sorted_of_nat_seq. Qed.

Lemma srun_str_all_positive (s : SrunCall.t) :
  all_positive s ->
  SrunCall.__str__ s
  = Ok (SrunCall.affinity_block s
        ++ SrunCall.srun_block
             (SrunCall.args s ++ " --cpu_bind=map_cpu:${CPU_MAP}")).
Proof.
  intros Ha. destruct (srun_str_cases s) as [[_ E]|[[Hno _]|[_ [Hno _]]]].
  - exact E.
  - exfalso. apply Hno. unfold any_positive, all_positive in *. lia.
  - contradiction.
Qed.

(** ** The composer, in closed form *)

(** The script text of a call whose three renderers return. *)
Lemma generate_script_eq header python srun singularity script_name
    header_txt singularity_args srun_text :
  SlurmHeader.__str__ header = Ok header_txt ->
  SingularityCall.full_args singularity = Ok singularity_args ->
  SrunCall.__str__ srun = Ok srun_text ->
  exists w,
    generate_submission_script header python srun singularity script_name
    = Ok (mkOutcome
            ((header_txt
              ++ script_body header python srun singularity singularity_args
                   srun_text (output_file header))
             ++ (if String.eqb (error_file header) (output_file header)
                 then "" else error_block (error_file header)))
            w).
Proof.
  intros Hh Hs Hr. unfold generate_submission_script.
  rewrite Hh, Hs, Hr. cbn [bind].
  destruct (String.eqb (error_file header) (output_file header));
    cbn [negb]; rewrite ?append_nil_r;
    destruct script_name as [name|];
    try destruct (negb (String.eqb name "")); eexists; reflexivity.
Qed.

(** A call that returns went through the three renderers. *)
Lemma generate_ok_inv header python srun singularity script_name o :
  generate_submission_script header python srun singularity script_name
  = Ok o ->
  exists header_txt singularity_args srun_text,
    SlurmHeader.__str__ header = Ok header_txt
    /\ SingularityCall.full_args singularity = Ok singularity_args
    /\ SrunCall.__str__ srun = Ok srun_text.
Proof.
  unfold generate_submission_script.
  destruct (SlurmHeader.__str__ header) as [ht|]; [|discriminate].
  destruct (SingularityCall.full_args singularity) as [sa|]; [|discriminate].
  destruct (SrunCall.__str__ srun) as [st|]; [|discriminate].
  intros _. now exists ht, sa, st.
Qed.

(** ** C6: resolved paths and the error-file block *)

Lemma is_suffix_app (t a b : string) : is_suffix t b -> is_suffix t (a ++ b).
Proof. intros [pre ->]. exists (a ++ pre). now rewrite append_assoc. Qed.

Lemma append_same_length_tail (p1 p2 a b : string) :
  String.length a = String.length b -> p1 ++ a = p2 ++ b -> a = b.
Proof.
  revert p2. induction p1 as [|x p1 IH]; intros [|y p2] Hl H;
    cbn [append] in H.
  - exact H.
  - exfalso. apply (f_equal String.length) in H.
    cbn [String.length] in H. rewrite length_append in H. lia.
  - exfalso. apply (f_equal String.length) in H.
    cbn [String.length] in H. rewrite length_append in H. lia.
  - injection H as _ H. now apply (IH p2).
Qed.

Lemma script_body_ends_with_output_block header python srun singularity
    singularity_args srun_text output_file :
  is_suffix (output_block output_file)
    (script_body header python srun singularity singularity_args srun_text
       output_file).
Proof.
  unfold script_body, output_block.
  repeat first
    [ (exists " `date`

"; reflexivity)
    | apply is_suffix_app ].
Qed.

(** A text that ends with the output block does not end with an error
    block: their last lines differ. *)
Lemma output_block_not_error_block (text output_file error_file : string) :
  is_suffix (output_block output_file) text ->
  ~ is_suffix (error_block error_file) text.
Proof.
  intros [p1 ->] [p2 H].
  assert (Ho : output_block output_file
               = ("OUTPUT_FILE=" ++ output_file ++ "
cp ${OUTPUT_FILE} ${JOBDIR}/${OUTPU") ++ "T_FILE}
") by (unfold output_block; now rewrite !append_assoc).
  assert (He : error_block error_file
               = ("
ERROR_FILE=" ++ error_file ++ "
cp ${ERROR_FILE} ${JOBDIR}/${ERRO") ++ "R_FILE}
") by (unfold error_block; now rewrite !append_assoc).
  rewrite Ho, He, <- !append_assoc in H.
  apply append_same_length_tail in H; [discriminate | reflexivity].
Qed.

(** C6. The resolved output and error paths are the job directory, a
    slash and the pattern, with %x and %j replaced by the SLURM job name and
    job id variables, so that neither placeholder is left in them; the
    returned script ends with the error-file
    copy-back block exactly when the two resolved paths differ as strings:
    it ends with the output block when they are equal, and with the output
    block followed by the error block when they differ. *)
Theorem error_block_iff_resolved_paths_differ header python srun singularity
    script_name o :
  generate_submission_script header python srun singularity script_name
  = Ok o ->
  output_file header
  = resolve_path (SlurmHeader.job_directory header) (SlurmHeader.output header)
  /\ error_file header
     = resolve_path (SlurmHeader.job_directory header)
         (SlurmHeader.error header)
  /\ occurs "%x" (output_file header) = false
  /\ occurs "%j" (output_file header) = false
  /\ occurs "%x" (error_file header) = false
  /\ occurs "%j" (error_file header) = false
  /\ (is_suffix (error_block (error_file header)) (script o)
      <-> error_file header <> output_file header)
  /\ (error_file header = output_file header ->
      is_suffix (output_block (output_file header)) (script o))
  /\ (error_file header <> output_file header ->
      is_suffix
        (output_block (output_file header) ++ error_block (error_file header))
        (script o)).
Proof.
  intros H. split; [reflexivity|]. split; [reflexivity|].
  split; [apply (resolve_path_without_placeholders
                   (SlurmHeader.job_directory header)
                   (SlurmHeader.output header))|].
  split; [apply (resolve_path_without_placeholders
                   (SlurmHeader.job_directory header)
                   (SlurmHeader.output header))|].
  split; [apply (resolve_path_without_placeholders
                   (SlurmHeader.job_directory header)
                   (SlurmHeader.error header))|].
  split; [apply (resolve_path_without_placeholders
                   (SlurmHeader.job_directory header)
                   (SlurmHeader.error header))|].
  destruct (generate_ok_inv _ _ _ _ _ _ H) as (ht & sa & st & Hh & Hs & Hr).
  destruct (generate_script_eq header python srun singularity script_name
              ht sa st Hh Hs Hr) as [w E].
  rewrite E in H. injection H as <-. cbn [script].
  pose proof (script_body_ends_with_output_block header python srun
                singularity sa st (output_file header)) as Hb.
  destruct (String.eqb_spec (error_file header) (output_file header))
    as [Heq|Hne].
  - rewrite append_nil_r.
    assert (Ho : is_suffix (output_block (output_file header))
                   (ht ++ script_body header python srun singularity sa st
                           (output_file header)))
      by now apply is_suffix_app.
    split; [|split]; [|auto|congruence].
    split; [|congruence].
    intros He. exfalso.
    exact (output_block_not_error_block _ _ (error_file header) Ho He).
  - split; [|split]; [|congruence|].
    + split; [auto|]. intros _. eexists. reflexivity.
    + intros _. destruct Hb as [pre ->].
      exists (ht ++ pre). now rewrite !append_assoc.
Qed.

(** ** The header as a list of lines *)

Lemma newline_free_append (a b : string) :
  newline_free (a ++ b) = newline_free a && newline_free b.
Proof.
  induction a as [|x a IH]; [reflexivity|]. cbn [append newline_free].
  now rewrite IH, andb_assoc.
Qed.

Lemma lines_line_newline (l rest : string) :
  newline_free l = true -> lines (l ++ String nl rest) = l :: lines rest.
Proof.
  induction l as [|c l IH]; cbn [append newline_free lines]; intros H.
  - reflexivity.
  - apply andb_prop in H. destruct H as [Hc Hl].
    apply negb_true_iff in Hc. rewrite Hc, IH by exact Hl. reflexivity.
Qed.

Lemma lines_unlines (ls : list string) :
  forallb newline_free ls = true -> lines (unlines ls) = (ls ++ [""])%list.
Proof.
  induction ls as [|l ls IH]; cbn [forallb unlines]; intros H.
  - reflexivity.
  - apply andb_prop in H. destruct H as [Hl Hls].
    rewrite lines_line_newline by exact Hl. now rewrite IH.
Qed.

Lemma unlines_app (a b : list string) :
  unlines (a ++ b)%list = unlines a ++ unlines b.
Proof.
  induction a as [|l a IH]; [reflexivity|]. cbn [app unlines].
  now rewrite IH, append_assoc.
Qed.

Lemma mandatory_block_unlines (self : SlurmHeader.t) (jd : string) :
  SlurmHeader.mandatory_block self jd = unlines (mandatory_lines self jd).
Proof.
  unfold SlurmHeader.mandatory_block, mandatory_lines, time_text.
  destruct (SlurmHeader.time self) as [[hh mm] ss].
  generalize (join ":" (map fmt02 [hh; mm; ss])).
  generalize (str_int (SlurmHeader.nodes self)),
    (str_int (SlurmHeader.ntasks_per_node self)).
  intros n t tm. cbn [unlines]. rewrite !append_assoc. reflexivity.
Qed.

Lemma optional_text_unlines (opt : string) (v d : pyval) :
  optional_text opt v d = unlines (optional_lines opt v d).
Proof.
  unfold optional_text, optional_lines, SlurmHeader.optional_block,
    optional_directive.
  destruct (negb (py_eqb v d)); [|reflexivity].
  cbn [unlines]. rewrite !append_assoc. reflexivity.
Qed.

Lemma flag_block_unlines (flag : string) (b : bool) :
  (if b then SlurmHeader.flag_block flag else "")
  = unlines (flag_lines flag b).
Proof.
  unfold flag_lines, SlurmHeader.flag_block. destruct b; [|reflexivity].
  cbn [unlines]. rewrite !append_assoc. reflexivity.
Qed.

Lemma header_text_unlines (h : SlurmHeader.t) :
  header_text h = unlines (header_lines h).
Proof.
  unfold header_text, header_lines, optionals_text, flags_text.
  rewrite !unlines_app, mandatory_block_unlines, !optional_text_unlines,
    !flag_block_unlines, !append_assoc.
  reflexivity.
Qed.

Lemma newline_free_uint (d : Decimal.uint) :
  newline_free (NilEmpty.string_of_uint d) = true.
Proof. induction d; cbn [NilEmpty.string_of_uint newline_free]; auto. Qed.

Lemma newline_free_str_int (z : Z) : newline_free (str_int z) = true.
Proof.
  unfold str_int, NilZero.string_of_int, NilZero.string_of_uint.
  destruct (Z.to_int z) as [d|d]; destruct d; cbn [newline_free];
    try reflexivity;
    match goal with
    | |- context [NilEmpty.string_of_uint ?u] =>
        apply (newline_free_uint u)
    end.
Qed.

Lemma newline_free_fmt02 (z : Z) : newline_free (fmt02 z) = true.
Proof.
  unfold fmt02. destruct ((0 <=? z) && (z <? 10));
    [cbn [append newline_free]|]; apply newline_free_str_int.
Qed.

Lemma newline_free_time_text (h : SlurmHeader.t) :
  newline_free (time_text h) = true.
Proof.
  unfold time_text. destruct (SlurmHeader.time h) as [[hh mm] ss].
  cbn [map join]. rewrite !newline_free_append, !newline_free_fmt02.
  reflexivity.
Qed.

Lemma newline_free_drop_last (s : string) :
  newline_free s = true -> newline_free (drop_last s) = true.
Proof.
  induction s as [|a s IH]; [reflexivity|]. cbn [newline_free]. intros H.
  apply andb_prop in H. destruct H as [Ha Hs].
  destruct s as [|b s]; [reflexivity|].
  change (drop_last (String a (String b s)))
    with (String a (drop_last (String b s))).
  cbn [newline_free]. rewrite Ha. now apply IH.
Qed.

Lemma newline_free_stripped (s : string) :
  newline_free s = true -> newline_free (stripped s) = true.
Proof.
  intros H. unfold stripped. destruct (last_char s) as [c|]; [|exact H].
  destruct (Ascii.eqb c "/"); [now apply newline_free_drop_last | exact H].
Qed.

Lemma plain_header_fields (h : SlurmHeader.t) :
  plain_header h = true ->
  forallb newline_free (string_fields h) = true
  /\ String.prefix "SBATCH --" (SlurmHeader.bash_path h) = false.
Proof.
  unfold plain_header. intros H. apply andb_prop in H. destruct H as [H1 H2].
  split; [exact H1 | now apply negb_true_iff].
Qed.

Lemma newline_free_optional_lines (opt : string) (v d : pyval) :
  newline_free (replace "_" "-" opt) = true ->
  newline_free (py_format v) = true ->
  forallb newline_free (optional_lines opt v d) = true.
Proof.
  intros Ho Hv. unfold optional_lines, optional_directive.
  destruct (negb (py_eqb v d)); [|reflexivity].
  cbn [forallb]. rewrite !newline_free_append, Ho, Hv. reflexivity.
Qed.

Lemma newline_free_flag_lines (flag : string) (b : bool) :
  newline_free flag = true -> forallb newline_free (flag_lines flag b) = true.
Proof.
  intros Hf. unfold flag_lines. destruct b; [|reflexivity].
  cbn [forallb]. rewrite newline_free_append, Hf. reflexivity.
Qed.

Lemma newline_free_mandatory_lines (h : SlurmHeader.t) (jd : string) :
  forallb newline_free (string_fields h) = true ->
  newline_free jd = true ->
  forallb newline_free (mandatory_lines h jd) = true.
Proof.
  intros H Hjd. unfold string_fields in H. cbn [forallb] in H.
  repeat (apply andb_prop in H; destruct H as [? H]).
  unfold mandatory_lines. cbn [forallb].
  rewrite !newline_free_append, !newline_free_str_int,
    newline_free_time_text, Hjd.
  repeat match goal with
         | Hf : newline_free ?x = true |- _ => rewrite Hf; clear Hf
         end.
  reflexivity.
Qed.

Lemma newline_free_header_lines (h : SlurmHeader.t) :
  plain_header h = true -> forallb newline_free (header_lines h) = true.
Proof.
  intros H. apply plain_header_fields in H. destruct H as [H _].
  pose proof H as Hall.
  unfold string_fields in H. cbn [forallb] in H.
  repeat (apply andb_prop in H; destruct H as [? H]).
  unfold header_lines. rewrite !forallb_app.
  rewrite newline_free_mandatory_lines
    by (try apply newline_free_stripped; assumption).
  rewrite !newline_free_optional_lines
    by (try reflexivity; try apply newline_free_str_int; assumption).
  rewrite !newline_free_flag_lines by reflexivity.
  reflexivity.
Qed.

Lemma has_line_header (h : SlurmHeader.t) (line : string) :
  plain_header h = true ->
  (has_line (header_text h) line <-> In line (header_lines h) \/ line = "").
Proof.
  intros H. unfold has_line.
  rewrite header_text_unlines, lines_unlines
    by now apply newline_free_header_lines.
  rewrite in_app_iff. cbn [In]. intuition congruence.
Qed.

Lemma in_optional_lines (line opt : string) (v d : pyval) :
  In line (optional_lines opt v d)
  <-> py_eqb v d = false /\ (line = "#" \/ line = optional_directive opt v).
Proof.
  unfold optional_lines. destruct (py_eqb v d); cbn [negb In].
  - intuition discriminate.
  - intuition congruence.
Qed.

Lemma in_flag_lines (line flag : string) (b : bool) :
  In line (flag_lines flag b)
  <-> b = true /\ (line = "#" \/ line = "#SBATCH --" ++ flag).
Proof.
  unfold flag_lines. destruct b; cbn [In].
  - intuition congruence.
  - intuition discriminate.
Qed.

Lemma in_header_lines (h : SlurmHeader.t) (line : string) :
  In line (header_lines h)
  <-> In line (mandatory_lines h (stripped (SlurmHeader.job_directory h)))
      \/ (py_eqb (PyInt (SlurmHeader.switches h)) (PyInt (-1)) = false
          /\ (line = "#"
              \/ line = optional_directive "switches"
                          (PyInt (SlurmHeader.switches h))))
      \/ (py_eqb (PyStr (SlurmHeader.distribution h)) (PyStr "") = false
          /\ (line = "#"
              \/ line = optional_directive "distribution"
                          (PyStr (SlurmHeader.distribution h))))
      \/ (py_eqb (PyStr (SlurmHeader.hint h)) (PyStr "") = false
          /\ (line = "#"
              \/ line = optional_directive "hint"
                          (PyStr (SlurmHeader.hint h))))
      \/ (py_eqb (PyStr (SlurmHeader.mail_user h)) (PyStr "") = false
          /\ (line = "#"
              \/ line = optional_directive "mail_user"
                          (PyStr (SlurmHeader.mail_user h))))
      \/ (py_eqb (PyStr (SlurmHeader.mail_type h)) (PyStr "") = false
          /\ (line = "#"
              \/ line = optional_directive "mail_type"
                          (PyStr (SlurmHeader.mail_type h))))
      \/ (SlurmHeader.exclusive h = true
          /\ (line = "#" \/ line = "#SBATCH --exclusive"))
      \/ (SlurmHeader.requeue h = true
          /\ (line = "#" \/ line = "#SBATCH --requeue")).
Proof.
  unfold header_lines.
  rewrite !in_app_iff, !in_optional_lines, !in_flag_lines. reflexivity.
Qed.

Lemma append_inv_head (p a b : string) : p ++ a = p ++ b -> a = b.
Proof.
  induction p as [|c p IH]; cbn [append]; [auto|].
  intros H. injection H as H. auto.
Qed.

(** No line of the header other than the directive's own block is the
    directive line: every other line differs from it within its first
    characters, and the interpreter line would need a [bash_path] that
    begins with "SBATCH --". *)
Ltac refute_line Hb E :=
  match goal with
  | H : False |- _ => destruct H
  | H : _ = _ |- _ => discriminate H
  | H : String "#" (SlurmHeader.bash_path _) = String "#" _ |- _ =>
      injection H as H; rewrite H in Hb; cbn in Hb; discriminate Hb
  | Hc : _ = false |- _ => rewrite E in Hc; discriminate Hc
  | Hc : _ = true |- _ => rewrite E in Hc; discriminate Hc
  end.

Ltac refute_lines H Hb E :=
  cbn [append] in H;
  repeat match type of H with
         | _ \/ _ => destruct H as [H|H]
         | _ /\ _ => let Hc := fresh "Hc" in destruct H as [Hc H]
         end;
  refute_line Hb E.

Ltac string_optional h field nav Hv Hd Hb :=
  change (SlurmHeader.getattr h _) with (Ok (PyStr (field h))) in Hv;
  injection Hv as <-; cbv in Hd; injection Hd as <-;
  cbn [py_format];
  let E := fresh "E" in
  destruct (String.eqb_spec (field h) "") as [E|E];
  [ split; [|intros Hne; exfalso; apply Hne; congruence];
    let H := fresh "H" in intros H; exfalso; refute_lines H Hb E
  | split; [intros _; congruence|]; intros _;
    left; nav; left; split; [reflexivity | right; reflexivity] ].

(** ** C5 and C7: optional directives and flags *)

(** C5 (amended). For every header that renders, whose string fields hold
    no newline and whose [bash_path] does not begin with "SBATCH --", and
    for each optional of (switches, distribution, hint, mail_user,
    mail_type): the line "#SBATCH --<name with hyphens>=<value>" is a line
    of the rendered header if and only if the configured value differs from
    the declared default of the field. *)
Theorem optional_rule_of_plain_header (h : SlurmHeader.t) :
  plain_header h = true -> optional_presence_rule h.
Proof.
  intros Hp text opt value default Hs Hin Hv Hd.
  assert (Hjd : SlurmHeader.job_directory h <> "").
  { intros E. rewrite header_str_empty in Hs by exact E. discriminate. }
  rewrite header_str_nonempty in Hs by exact Hjd. injection Hs as <-.
  rewrite has_line_header by exact Hp.
  apply plain_header_fields in Hp. destruct Hp as [_ Hb].
  rewrite in_header_lines. unfold mandatory_lines.
  unfold SlurmHeader.optionals in Hin. cbn [In] in Hin.
  unfold optional_directive.
  change (replace "_" "-" "switches") with "switches".
  change (replace "_" "-" "distribution") with "distribution".
  change (replace "_" "-" "hint") with "hint".
  change (replace "_" "-" "mail_user") with "mail-user".
  change (replace "_" "-" "mail_type") with "mail-type".
  cbn [In py_format py_eqb].
  destruct Hin as [<-|[<-|[<-|[<-|[<-|[]]]]]].
  - change (SlurmHeader.getattr h "switches")
      with (Ok (PyInt (SlurmHeader.switches h))) in Hv.
    injection Hv as <-. cbv in Hd. injection Hd as <-.
    change (replace "_" "-" "switches") with "switches".
    cbn [py_format].
    destruct (Z.eqb_spec (SlurmHeader.switches h) (-1)) as [E|E].
    + split; [|intros Hne; exfalso; apply Hne; congruence].
      intros H. exfalso. refute_lines H Hb E.
    + split; [intros _; congruence|]. intros _.
      left. do 1 right. left. split; [reflexivity | right; reflexivity].
  - change (replace "_" "-" "distribution") with "distribution".
    string_optional h SlurmHeader.distribution ltac:(do 2 right) Hv Hd Hb.
  - change (replace "_" "-" "hint") with "hint".
    string_optional h SlurmHeader.hint ltac:(do 3 right) Hv Hd Hb.
  - change (replace "_" "-" "mail_user") with "mail-user".
    string_optional h SlurmHeader.mail_user ltac:(do 4 right) Hv Hd Hb.
  - change (replace "_" "-" "mail_type") with "mail-type".
    string_optional h SlurmHeader.mail_type ltac:(do 5 right) Hv Hd Hb.
Qed.

(** C7 (amended). For every header that renders, whose string fields hold
    no newline and whose [bash_path] does not begin with "SBATCH --": the
    bare line "#SBATCH --exclusive" is a line of the rendered header if and
    only if [exclusive] is true, and the bare line "#SBATCH --requeue" if
    and only if [requeue] is true. *)
Theorem flag_rule_of_plain_header (h : SlurmHeader.t) :
  plain_header h = true -> flag_presence_rule h.
Proof.
  intros Hp text Hs.
  assert (Hjd : SlurmHeader.job_directory h <> "").
  { intros E. rewrite header_str_empty in Hs by exact E. discriminate. }
  rewrite header_str_nonempty in Hs by exact Hjd. injection Hs as <-.
  rewrite !has_line_header by exact Hp.
  apply plain_header_fields in Hp. destruct Hp as [_ Hb].
  rewrite !in_header_lines. unfold mandatory_lines, optional_directive.
  change (replace "_" "-" "switches") with "switches".
  change (replace "_" "-" "distribution") with "distribution".
  change (replace "_" "-" "hint") with "hint".
  change (replace "_" "-" "mail_user") with "mail-user".
  change (replace "_" "-" "mail_type") with "mail-type".
  cbn [In py_format py_eqb].
  split.
  - destruct (SlurmHeader.exclusive h) eqn:E.
    + split; [reflexivity|]. intros _.
      left. do 6 right. left. split; [reflexivity | right; reflexivity].
    + split; [|discriminate]. intros H. exfalso. refute_lines H Hb E.
  - destruct (SlurmHeader.requeue h) eqn:E.
    + split; [reflexivity|]. intros _.
      left. do 7 right. split; [reflexivity | right; reflexivity].
    + split; [|discriminate]. intros H. exfalso. refute_lines H Hb E.
Qed.

Lemma has_line_checked (text line : string) :
  existsb (String.eqb line) (lines text) = true -> has_line text line.
Proof.
  intros H. apply existsb_exists in H. destruct H as [l [Hin Hl]].
  apply String.eqb_eq in Hl. now subst l.
Qed.

Lemma optional_rule_fails_at (h : SlurmHeader.t) (text : string) :
  SlurmHeader.__str__ h = Ok text ->
  SlurmHeader.hint h = "" ->
  existsb (String.eqb "#SBATCH --hint=") (lines text) = true ->
  ~ optional_presence_rule h.
Proof.
  intros Hs Hh Hl Hrule.
  assert (Hv : SlurmHeader.getattr h "hint" = Ok (PyStr "")).
  { change (SlurmHeader.getattr h "hint")
      with (Ok (PyStr (SlurmHeader.hint h))). now rewrite Hh. }
  destruct (Hrule text "hint" (PyStr "") (PyStr "") Hs) as [Hif _];
    [ cbn; tauto | exact Hv | reflexivity | ].
  apply Hif; [|reflexivity]. now apply has_line_checked.
Qed.

(** C5, as stated, fails: with the default [hint] the line "#SBATCH --hint="
    is nevertheless a line of the rendered header when [bash_path] is
    "SBATCH --hint=", and when the mail address carries it on a second
    line. *)
Lemma optional_rule_counterexample :
  ~ optional_presence_rule Example.header_hint_path
  /\ ~ optional_presence_rule Example.header_hint_mail.
Proof.
  split.
  - apply (optional_rule_fails_at Example.header_hint_path
             (header_text Example.header_hint_path));
      [ apply header_str_nonempty; discriminate | reflexivity
      | vm_compute; reflexivity ].
  - apply (optional_rule_fails_at Example.header_hint_mail
             (header_text Example.header_hint_mail));
      [ apply header_str_nonempty; discriminate | reflexivity
      | vm_compute; reflexivity ].
Qed.

Lemma optional_rule_of_plain_header_witness :
  plain_header Example.header = true
  /\ optional_presence_rule Example.header.
Proof.
  split; [reflexivity|].
  apply (optional_rule_of_plain_header Example.header). reflexivity.
Defined.

Lemma flag_rule_fails_at (h : SlurmHeader.t) (text : string) :
  SlurmHeader.__str__ h = Ok text ->
  SlurmHeader.exclusive h = false ->
  existsb (String.eqb "#SBATCH --exclusive") (lines text) = true ->
  ~ flag_presence_rule h.
Proof.
  intros Hs Hx Hl Hrule.
  destruct (Hrule text Hs) as [[Hif _] _].
  rewrite Hx in Hif. discriminate Hif. now apply has_line_checked.
Qed.

(** C7, as stated, fails: with [exclusive] false the line
    "#SBATCH --exclusive" is nevertheless a line of the rendered header
    when [bash_path] is "SBATCH --exclusive", and when the mail address
    carries it on a second line. *)
Lemma flag_rule_counterexample :
  ~ flag_presence_rule Example.header_exclusive_path
  /\ ~ flag_presence_rule Example.header_exclusive_mail.
Proof.
  split.
  - apply (flag_rule_fails_at Example.header_exclusive_path
             (header_text Example.header_exclusive_path));
      [ apply header_str_nonempty; discriminate | reflexivity
      | vm_compute; reflexivity ].
  - apply (flag_rule_fails_at Example.header_exclusive_mail
             (header_text Example.header_exclusive_mail));
      [ apply header_str_nonempty; discriminate | reflexivity
      | vm_compute; reflexivity ].
Qed.

Lemma flag_rule_of_plain_header_witness :
  plain_header Example.header = true /\ flag_presence_rule Example.header.
Proof.
  split; [reflexivity|].
  apply (flag_rule_of_plain_header Example.header). reflexivity.
Defined.

(** ** C4: the trailing slash of the job directory *)

Lemma stripped_slash (d : string) : stripped (d ++ "/") = d.
Proof.
  unfold stripped. rewrite last_char_snoc. cbn [Ascii.eqb Bool.eqb].
  apply drop_last_snoc.
Qed.

Lemma stripped_no_slash (d : string) :
  last_char d <> Some "/"%char -> stripped d = d.
Proof.
  intros H. unfold stripped. destruct (last_char d) as [c|]; [|reflexivity].
  destruct (Ascii.eqb_spec c "/"); [congruence | reflexivity].
Qed.

(** The header renderer does strip the slash: the two job directories give
    the same header text. *)
Lemma header_text_trailing_slash (h : SlurmHeader.t) (d : string) :
  last_char d <> Some "/"%char ->
  header_text (with_job_directory (d ++ "/") h)
  = header_text (with_job_directory d h).
Proof.
  intros H. unfold header_text.
  cbn [with_job_directory SlurmHeader.job_directory].
  rewrite stripped_slash, stripped_no_slash by exact H. reflexivity.
Qed.

(** The composer does not: the job directory goes into the body as it was
    configured. *)
Lemma script_body_head header python srun singularity singularity_args
    srun_text output_file :
  exists rest,
    script_body header python srun singularity singularity_args srun_text
      output_file
    = "
# exit on first error
set -e

# print commands
set -x

### === --- Unique identifier and directory

JOBCODE=${SLURM_JOB_NAME}-${SLURM_JOB_ID}
JOBDIR=" ++ SlurmHeader.job_directory header ++ "/${JOBCODE}" ++ rest.
Proof.
  unfold script_body. eexists. do 2 f_equal. cbn [append]. reflexivity.
Qed.

(** C4, on the code: for every configuration that generates a script and
    every non-empty job directory [d] without a trailing slash, the header
    text is the same for [d] and for [d] followed by a slash, but the two
    scripts differ (the second sets JOBDIR to [d] followed by two
    slashes). *)
Theorem trailing_slash_changes_script (h : SlurmHeader.t)
    (python : PythonCall.t) (srun : SrunCall.t)
    (singularity : SingularityCall.t) (script_name : option string)
    (d : string) (o1 o2 : outcome) :
  d <> "" ->
  last_char d <> Some "/"%char ->
  generate_submission_script (with_job_directory (d ++ "/") h) python srun
    singularity script_name = Ok o1 ->
  generate_submission_script (with_job_directory d h) python srun
    singularity script_name = Ok o2 ->
  SlurmHeader.__str__ (with_job_directory (d ++ "/") h)
  = SlurmHeader.__str__ (with_job_directory d h)
  /\ script o1 <> script o2.
Proof.
  intros Hd Hl H1 H2.
  assert (Hd1 : SlurmHeader.job_directory (with_job_directory (d ++ "/") h)
                <> "") by (cbn; destruct d; discriminate).
  assert (Hd2 : SlurmHeader.job_directory (with_job_directory d h) <> "")
    by exact Hd.
  pose proof (header_str_nonempty _ Hd1) as Hs1.
  pose proof (header_str_nonempty _ Hd2) as Hs2.
  split.
  { rewrite Hs1, Hs2. f_equal. now apply header_text_trailing_slash. }
  destruct (generate_ok_inv _ _ _ _ _ _ H1) as (ht & sa & st & Hh & Hs & Hr).
  rewrite Hs1 in Hh. injection Hh as <-.
  destruct (generate_script_eq _ python srun singularity script_name
              _ sa st Hs1 Hs Hr) as [w1 E1].
  destruct (generate_script_eq _ python srun singularity script_name
              _ sa st Hs2 Hs Hr) as [w2 E2].
  rewrite E1 in H1. rewrite E2 in H2.
  injection H1 as <-. injection H2 as <-. cbn [script].
  rewrite header_text_trailing_slash by exact Hl.
  destruct (script_body_head (with_job_directory (d ++ "/") h) python srun
              singularity sa st
              (output_file (with_job_directory (d ++ "/") h))) as [r1 ->].
  destruct (script_body_head (with_job_directory d h) python srun
              singularity sa st
              (output_file (with_job_directory d h))) as [r2 ->].
  cbn [with_job_directory SlurmHeader.job_directory].
  rewrite !append_assoc. intros H.
  apply append_inv_head in H. apply append_inv_head in H.
  apply append_inv_head in H. cbn [append] in H. discriminate H.
Qed.

Lemma trailing_slash_changes_script_witness :
  exists o1 o2,
    generate_submission_script Example.header_slash Example.python
      Example.srun Example.singularity None = Ok o1
    /\ generate_submission_script Example.header Example.python
         Example.srun Example.singularity None = Ok o2
    /\ SlurmHeader.__str__ Example.header_slash
       = SlurmHeader.__str__ Example.header
    /\ script o1 <> script o2.
Proof.
  eexists. eexists.
  split; [vm_compute; reflexivity|]. split; [vm_compute; reflexivity|].
  apply (trailing_slash_changes_script Example.header Example.python
           Example.srun Example.singularity None "results");
    [ discriminate | discriminate | vm_compute; reflexivity
    | vm_compute; reflexivity ].
Defined.

(** ** C1: operations that raise *)

Lemma full_args_with_home (s : SingularityCall.t) :
  SingularityCall.home s <> "" ->
  exists a, SingularityCall.full_args s = Ok a.
Proof.
  intros H. apply String.eqb_neq in H. unfold SingularityCall.full_args.
  rewrite H. cbn [negb read_local bind].
  destruct (negb (String.eqb (SingularityCall.bind_from s) ""));
    cbn [String.eqb negb bind read_local];
    try destruct (negb (endswith ("--home " ++ SingularityCall.home s) " "));
    cbn [bind read_local];
    destruct (negb (String.eqb (SingularityCall.bind_to s) ""));
    cbn [bind read_local]; eexists; reflexivity.
Qed.

(** The composer returns exactly when none of its three renderers raises. *)
Lemma generate_returns_iff header python srun singularity script_name :
  (exists o,
     generate_submission_script header python srun singularity script_name
     = Ok o)
  <-> SlurmHeader.job_directory header <> ""
      /\ SingularityCall.home singularity <> ""
      /\ (~ any_positive srun \/ all_positive srun).
Proof.
  split.
  - intros [o H].
    destruct (generate_ok_inv _ _ _ _ _ _ H) as (ht & sa & st & Hh & Hs & Hr).
    split; [|split].
    + intros E. rewrite header_str_empty in Hh by exact E. discriminate.
    + intros E. rewrite full_args_no_home in Hs by exact E. discriminate.
    + destruct (srun_str_cases srun) as [[Ha _]|[[Hn _]|[_ [_ E]]]];
        [now right | now left | rewrite E in Hr; discriminate].
  - intros (Hd & Hh & Ht).
    destruct (full_args_with_home singularity Hh) as [sa Hs].
    assert (Hr : exists st, SrunCall.__str__ srun = Ok st).
    { destruct (srun_str_cases srun) as [[_ E]|[[_ E]|[Ha [Hn _]]]];
        [eexists; exact E | eexists; exact E | tauto]. }
    destruct Hr as [st Hr].
    destruct (generate_script_eq header python srun singularity script_name
                _ sa st (header_str_nonempty header Hd) Hs Hr) as [w E].
    eexists. exact E.
Qed.

(** C1, on the code: the affinity validation is not the only operation
    that raises.  With every optional field at its default, [full_args]
    raises UnboundLocalError and the header renderer raises IndexError, and
    so does the composer, although the affinity triple is valid.  In
    general the composer returns exactly when the job directory and the
    home are non-empty and the affinity triple is valid. *)
Theorem defaults_raise_outside_affinity_validation :
  SingularityCall.full_args Example.bare_container = Raise UnboundLocalError
  /\ SlurmHeader.__str__ Example.header_no_directory = Raise IndexError
  /\ (exists text, SrunCall.__str__ Example.srun = Ok text)
  /\ generate_submission_script Example.header Example.python Example.srun
       Example.bare_container None = Raise UnboundLocalError
  /\ generate_submission_script Example.header_no_directory Example.python
       Example.srun Example.singularity None = Raise IndexError
  /\ forall header python srun singularity script_name,
       (exists o,
          generate_submission_script header python srun singularity
            script_name = Ok o)
       <-> SlurmHeader.job_directory header <> ""
           /\ SingularityCall.home singularity <> ""
           /\ (~ any_positive srun \/ all_positive srun).
Proof.
  split; [reflexivity|]. split; [reflexivity|].
  split; [eexists; vm_compute; reflexivity|].
  split; [vm_compute; reflexivity|]. split; [vm_compute; reflexivity|].
  apply generate_returns_iff.
Qed.

(** ** Concrete instances *)

Lemma full_args_unbound_without_home_witness :
  SingularityCall.home Example.bare_container = ""
  /\ SingularityCall.full_args Example.bare_container
     = Raise UnboundLocalError
  /\ forall header python srun script_name,
       generate_submission_script header python srun Example.bare_container
         script_name
       = Raise (if String.eqb (SlurmHeader.job_directory header) ""
                then IndexError else UnboundLocalError).
Proof.
  split; [reflexivity|].
  apply (full_args_unbound_without_home Example.bare_container). reflexivity.
Defined.

Lemma full_args_home_and_bind_to_witness :
  SingularityCall.full_args Example.home_and_bind_to
  = Ok "--home $PWD:/home/firedrake/work".
Proof.
  apply (full_args_home_and_bind_to Example.home_and_bind_to);
    [discriminate | reflexivity | discriminate].
Defined.

Lemma error_block_iff_resolved_paths_differ_witness :
  exists o,
    generate_submission_script Example.header Example.python Example.srun
      Example.singularity None = Ok o
    /\ output_file Example.header
       = "results/slurm-${SLURM_JOB_NAME}-${SLURM_JOB_ID}.out"
    /\ (is_suffix (error_block (error_file Example.header)) (script o)
        <-> error_file Example.header <> output_file Example.header).
Proof.
  eexists. split; [vm_compute; reflexivity|].
  split; [reflexivity|].
  apply (error_block_iff_resolved_paths_differ Example.header Example.python
           Example.srun Example.singularity None).
  vm_compute; reflexivity.
Defined.

(** ** The size of the CPU map *)

Lemma length_range (n : Z) : length (range n) = Z.to_nat n.
Proof. unfold range. now rewrite length_map, length_seq. Qed.

Lemma of_nat_seq_shift (start len : nat) :
  map Z.of_nat (seq start len)
  = map (fun i => Z.of_nat start + i) (map Z.of_nat (seq 0 len)).
Proof.
  rewrite map_map. rewrite <- (Nat.add_0_r start) at 1.
  generalize 0%nat as base. induction len as [|len IH]; intros base;
    cbn [seq map]; [reflexivity|].
  f_equal; [lia|]. rewrite <- IH. f_equal. f_equal. lia.
Qed.

Lemma range_add (n m : Z) :
  0 <= n -> 0 <= m ->
  range (n + m) = (range n ++ map (fun i => n + i) (range m))%list.
Proof.
  intros Hn Hm. unfold range.
  rewrite Z2Nat.inj_add, seq_app, map_app by lia. f_equal.
  cbn [Nat.add]. rewrite of_nat_seq_shift.
  apply map_ext. intros i. lia.
Qed.

Lemma length_filter_map (f : Z -> bool) (g : Z -> Z) (l : list Z) :
  length (filter f (map g l)) = length (filter (fun x => f (g x)) l).
Proof.
  induction l as [|x l IH]; [reflexivity|]. cbn [map filter].
  destruct (f (g x)); cbn [length]; now rewrite IH.
Qed.

Lemma filter_all (f : Z -> bool) (l : list Z) :
  (forall x, In x l -> f x = true) -> filter f l = l.
Proof.
  induction l as [|x l IH]; intros H; [reflexivity|]. cbn [filter].
  rewrite (H x) by now left. f_equal. apply IH. intros y Hy. apply H.
  now right.
Qed.

Lemma filter_none (f : Z -> bool) (l : list Z) :
  (forall x, In x l -> f x = false) -> filter f l = [].
Proof.
  induction l as [|x l IH]; intros H; [reflexivity|]. cbn [filter].
  rewrite (H x) by now left. apply IH. intros y Hy. apply H. now right.
Qed.

(** Of the cores of one cache, the first [c] pass the test. *)
Lemma count_below (c s : Z) :
  0 <= c <= s ->
  length (filter (fun j => j <? c) (range s)) = Z.to_nat c.
Proof.
  intros H. replace s with (c + (s - c)) by lia.
  rewrite range_add, filter_app, length_app by lia.
  rewrite filter_all, length_range.
  - rewrite filter_none; [cbn [length]; lia|].
    intros x Hx. apply in_map_iff in Hx. destruct Hx as [j [<- Hj]].
    apply in_range in Hj. apply Z.ltb_ge. lia.
  - intros x Hx. apply in_range in Hx. apply Z.ltb_lt. lia.
Qed.

Lemma count_selected_blocks (c s : Z) (k : nat) :
  0 < s -> 0 <= c <= s ->
  length (cpu_map_select c s (s * Z.of_nat k)) = (Z.to_nat c * k)%nat.
Proof.
  intros Hs Hc. unfold cpu_map_select. induction k as [|k IH].
  - rewrite Z.mul_0_r. cbn. lia.
  - replace (s * Z.of_nat (S k)) with (s * Z.of_nat k + s) by lia.
    rewrite range_add, filter_app, length_app, IH by lia.
    rewrite length_filter_map.
    rewrite (filter_ext_in _ (fun j => j <? c)).
    + rewrite count_below by lia. lia.
    + intros j Hj. apply in_range in Hj. f_equal.
      rewrite Z.add_comm, Z.mul_comm, Z.mod_add by lia.
      apply Z.mod_small. lia.
Qed.

(** ** The container arguments, with a home *)

Lemma last_char_append (p s : string) :
  s <> "" -> last_char (p ++ s) = last_char s.
Proof.
  intros Hs. induction p as [|c p IH]; [reflexivity|].
  cbn [append last_char]. destruct (p ++ s) eqn:E; [|exact IH].
  destruct p, s; cbn in E; congruence.
Qed.

Lemma substring_last (s : string) :
  String.substring (String.length s - 1) 1 s
  = match last_char s with Some c => String c "" | None => "" end.
Proof.
  induction s as [|a s IH]; [reflexivity|].
  destruct s as [|b s]; [reflexivity|].
  change (last_char (String a (String b s))) with (last_char (String b s)).
  rewrite <- IH. cbn [String.length Nat.sub]. rewrite Nat.sub_0_r.
  cbn [String.substring]. destruct (String.length s); reflexivity.
Qed.

(** [s.endswith(" ")] looks at the last character only. *)
Lemma endswith_space (s : string) :
  endswith s " "
  = match last_char s with Some c => Ascii.eqb c " " | None => false end.
Proof.
  unfold endswith. change (String.length " ") with 1%nat.
  rewrite substring_last. destruct s as [|a s]; [reflexivity|].
  destruct (last_char_nonempty (String a s)) as [c Hc]; [discriminate|].
  rewrite Hc. cbn [String.length Nat.leb andb String.eqb].
  now destruct (Ascii.eqb c " ").
Qed.

Lemma endswith_space_append (p s : string) :
  s <> "" -> endswith (p ++ s) " " = endswith s " ".
Proof. intros Hs. now rewrite !endswith_space, last_char_append. Qed.

(** X11. With a home, [full_args] returns the home argument, then the
    bind argument if a bind source is set, separated by one space unless
    the home already ends with a space, then a colon and the bind
    destination if one is set. *)
Theorem full_args_with_home_closed_form (s : SingularityCall.t) :
  SingularityCall.home s <> "" ->
  SingularityCall.full_args s
  = Ok ("--home " ++ SingularityCall.home s
        ++ (if String.eqb (SingularityCall.bind_from s) "" then ""
            else (if endswith (SingularityCall.home s) " " then "" else " ")
                 ++ "--bind " ++ SingularityCall.bind_from s)
        ++ (if String.eqb (SingularityCall.bind_to s) "" then ""
            else ":" ++ SingularityCall.bind_to s)).
Proof.
  intros Hh. pose proof Hh as Hne. apply String.eqb_neq in Hh.
  unfold SingularityCall.full_args. rewrite Hh.
  cbn [negb read_local bind].
  replace (String.eqb ("--home " ++ SingularityCall.home s) "") with false
    by reflexivity.
  cbn [negb bind read_local].
  rewrite (endswith_space_append "--home " _ Hne).
  destruct (String.eqb (SingularityCall.bind_from s) "");
    destruct (endswith (SingularityCall.home s) " ");
    destruct (String.eqb (SingularityCall.bind_to s) "");
    cbn [negb bind read_local]; f_equal;
    rewrite ?append_assoc, ?append_nil_r; reflexivity.
Qed.

Lemma full_args_with_home_closed_form_witness :
  SingularityCall.full_args Example.singularity
  = Ok "--home $PWD --bind $PWD:/home/firedrake/work".
Proof.
  apply (full_args_with_home_closed_form Example.singularity). discriminate.
Defined.

(** X12. The [args] field of a SingularityCall is never read: neither
    [full_args] nor the composed script depends on it. *)
Theorem container_args_field_is_never_read (a : string)
    (s : SingularityCall.t) (header : SlurmHeader.t) (python : PythonCall.t)
    (srun : SrunCall.t) (script_name : option string) :
  SingularityCall.full_args (with_args a s) = SingularityCall.full_args s
  /\ generate_submission_script header python srun (with_args a s)
       script_name
     = generate_submission_script header python srun s script_name.
Proof. split; reflexivity. Qed.

(** ** The composer: errors, the file, the parts *)

(** X13. The composer raises the first failure in the order header,
    container arguments, launcher: IndexError exactly for an empty job
    directory; UnboundLocalError exactly for a non-empty job directory and
    an empty home; the affinity ValueError exactly when both are non-empty
    and the triple is partly set.  It never raises AttributeError. *)
Theorem generate_raises_first_failure header python srun singularity
    script_name :
  (generate_submission_script header python srun singularity script_name
   = Raise IndexError
   <-> SlurmHeader.job_directory header = "")
  /\ (generate_submission_script header python srun singularity script_name
      = Raise UnboundLocalError
      <-> SlurmHeader.job_directory header <> ""
          /\ SingularityCall.home singularity = "")
  /\ (generate_submission_script header python srun singularity script_name
      = Raise (ValueError SrunCall.must_set_all_msg)
      <-> SlurmHeader.job_directory header <> ""
          /\ SingularityCall.home singularity <> ""
          /\ any_positive srun /\ ~ all_positive srun)
  /\ generate_submission_script header python srun singularity script_name
     <> Raise AttributeError.
Proof.
  unfold generate_submission_script.
  destruct (String.eqb_spec (SlurmHeader.job_directory header) "") as [Ed|Ed].
  { rewrite header_str_empty by exact Ed. cbn [bind].
    repeat split; try discriminate; try tauto. }
  rewrite header_str_nonempty by exact Ed. cbn [bind].
  destruct (String.eqb_spec (SingularityCall.home singularity) "") as [Eh|Eh].
  { rewrite full_args_no_home by exact Eh. cbn [bind].
    repeat split; try discriminate; try tauto. }
  destruct (full_args_with_home singularity Eh) as [sa ->]. cbn [bind].
  destruct (srun_str_cases srun) as [[Ha ->]|[[Hn ->]|[Ha [Hn ->]]]];
    cbn [bind].
  - repeat split; try tauto;
      destruct (negb (String.eqb (error_file header) (output_file header)));
      destruct script_name as [name|];
      try destruct (negb (String.eqb name "")); discriminate.
  - repeat split; try tauto;
      destruct (negb (String.eqb (error_file header) (output_file header)));
      destruct script_name as [name|];
      try destruct (negb (String.eqb name "")); discriminate.
  - repeat split; try discriminate; try tauto.
Qed.

(** X14. A call that returns writes a file exactly when the script name
    is a non-empty string, and then the file holds the returned script
    under that name; the returned script does not depend on the script
    name. *)
Theorem generate_writes_what_it_returns header python srun singularity
    script_name o :
  generate_submission_script header python srun singularity script_name
  = Ok o ->
  written o
  = match script_name with
    | Some name => if String.eqb name "" then None else Some (name, script o)
    | None => None
    end
  /\ generate_submission_script header python srun singularity None
     = Ok (mkOutcome (script o) None).
Proof.
  unfold generate_submission_script.
  destruct (SlurmHeader.__str__ header) as [ht|]; [|discriminate].
  destruct (SingularityCall.full_args singularity) as [sa|]; [|discriminate].
  destruct (SrunCall.__str__ srun) as [st|]; [|discriminate].
  cbn [bind]. destruct script_name as [name|].
  - destruct (String.eqb name ""); cbn [negb]; intros H; injection H as <-;
      split; reflexivity.
  - intros H; injection H as <-. split; reflexivity.
Qed.

Lemma generate_writes_what_it_returns_witness :
  exists o,
    generate_submission_script Example.header Example.python Example.srun
      Example.singularity (Some "test-jobscript.sh") = Ok o
    /\ written o = Some ("test-jobscript.sh", script o).
Proof.
  eexists. split; [vm_compute; reflexivity|].
  apply (generate_writes_what_it_returns Example.header Example.python
           Example.srun Example.singularity (Some "test-jobscript.sh")).
  vm_compute; reflexivity.
Defined.

(** ** The parts of the script, in order *)

Lemma peel_three (F : string -> string -> string) (x t : string) :
  (exists a b c, t = a ++ F b c) -> exists a b c, x ++ t = a ++ F b c.
Proof.
  intros (a & b & c & ->). exists (x ++ a), b, c. now rewrite append_assoc.
Qed.

Lemma peel_two (G : string -> string) (x t : string) :
  (exists b c, t = b ++ G c) -> exists b c, x ++ t = b ++ G c.
Proof.
  intros (b & c & ->). exists (x ++ b), c. now rewrite append_assoc.
Qed.

Lemma found_first (M G : string -> string) (p t : string) :
  (exists b c, t = b ++ G c) ->
  exists a b c, p ++ M t = a ++ M (b ++ G c).
Proof. intros (b & c & ->). now exists p, b, c. Qed.

Lemma found_second (G : string -> string) (p t : string) :
  exists b c, p ++ G t = b ++ G c.
Proof. now exists p, t. Qed.

(** X15. A returned script begins with the rendered header and goes on
    to hold, in this order, the container arguments inside the quotes of
    SINGULARITY_ARGS and the rendered launcher followed by the RUN_XTHI
    assignment, 1 for [xthi] and 0 otherwise. *)
Theorem script_is_header_container_launcher header python srun singularity
    script_name o :
  generate_submission_script header python srun singularity script_name
  = Ok o ->
  exists header_txt singularity_args srun_text a b c,
    SlurmHeader.__str__ header = Ok header_txt
    /\ SingularityCall.full_args singularity = Ok singularity_args
    /\ SrunCall.__str__ srun = Ok srun_text
    /\ script o
       = header_txt ++ a
         ++ "SINGULARITY_ARGS=" ++ dq ++ singularity_args ++ dq ++ b
         ++ "### === --- srun call

" ++ srun_text ++ "

### === --- Print rank layout or not?

RUN_XTHI=" ++ (if SrunCall.xthi srun then "1" else "0") ++ String nl c.
Proof.
  intros H.
  destruct (generate_ok_inv _ _ _ _ _ _ H) as (ht & sa & st & Hh & Hs & Hr).
  destruct (generate_script_eq header python srun singularity script_name
              ht sa st Hh Hs Hr) as [w E].
  rewrite E in H. injection H as <-. cbn [script].
  exists ht, sa, st.
  cut (exists a b c,
         script_body header python srun singularity sa st (output_file header)
         ++ (if String.eqb (error_file header) (output_file header)
             then "" else error_block (error_file header))
         = a ++ (fun b c =>
                   "SINGULARITY_ARGS=" ++ dq ++ sa ++ dq ++ b
                   ++ "### === --- srun call

" ++ st ++ "

### === --- Print rank layout or not?

RUN_XTHI=" ++ (if SrunCall.xthi srun then "1" else "0") ++ String nl c) b c).
  { intros (a & b & c & Hb). exists a, b, c. repeat split; try assumption.
    rewrite append_assoc, Hb. reflexivity. }
  unfold script_body.
  replace (str_int (Z_of_bool (SrunCall.xthi srun)))
    with (if SrunCall.xthi srun then "1" else "0")
    by (destruct (SrunCall.xthi srun); reflexivity).
  rewrite !append_assoc.
  repeat first
    [ apply (found_first
               (fun r => "SINGULARITY_ARGS=" ++ dq ++ sa ++ dq ++ r)
               (fun c => "### === --- srun call

" ++ st ++ "

### === --- Print rank layout or not?

RUN_XTHI=" ++ (if SrunCall.xthi srun then "1" else "0") ++ String nl c)
               "

")
    | apply (peel_three
               (fun b c =>
                  "SINGULARITY_ARGS=" ++ dq ++ sa ++ dq ++ b
                  ++ "### === --- srun call

" ++ st ++ "

### === --- Print rank layout or not?

RUN_XTHI=" ++ (if SrunCall.xthi srun then "1" else "0") ++ String nl c)) ].
  repeat first
    [ apply (found_second
               (fun c => "### === --- srun call

" ++ st ++ "

### === --- Print rank layout or not?

RUN_XTHI=" ++ (if SrunCall.xthi srun then "1" else "0") ++ String nl c)
               "

")
    | apply (peel_two
               (fun c => "### === --- srun call

" ++ st ++ "

### === --- Print rank layout or not?

RUN_XTHI=" ++ (if SrunCall.xthi srun then "1" else "0") ++ String nl c)) ].
Qed.

(** X16. A returned script assigns the five fields of the PythonCall, as
    they are, to PYTHON_SCRIPT, PYTHON_SCRIPT_DIR, PYTHON_SCRIPT_ARGS,
    PYTHON_ARGS and PYTHON_EXEC, the last three inside quotes. *)
Theorem script_assigns_program_variables header python srun singularity
    script_name o :
  generate_submission_script header python srun singularity script_name
  = Ok o ->
  exists a c,
    script o
    = a ++ "PYTHON_SCRIPT=" ++ PythonCall.script_name python ++ "
PYTHON_SCRIPT_DIR=" ++ PythonCall.script_dir python ++ "

PYTHON_SCRIPT_ARGS=" ++ dq ++ PythonCall.script_args python ++ dq ++ "

### === --- Python executable

PYTHON_ARGS=" ++ dq ++ PythonCall.args python ++ dq ++ "
PYTHON_EXEC=" ++ dq ++ PythonCall.path python ++ dq ++ String nl c.
Proof.
  intros H.
  destruct (generate_ok_inv _ _ _ _ _ _ H) as (ht & sa & st & Hh & Hs & Hr).
  destruct (generate_script_eq header python srun singularity script_name
              ht sa st Hh Hs Hr) as [w E].
  rewrite E in H. injection H as <-. cbn [script].
  unfold script_body. rewrite !append_assoc.
  repeat first
    [ apply (found_second
               (fun c => "PYTHON_SCRIPT=" ++ PythonCall.script_name python
                         ++ "
PYTHON_SCRIPT_DIR=" ++ PythonCall.script_dir python ++ "

PYTHON_SCRIPT_ARGS=" ++ dq ++ PythonCall.script_args python ++ dq ++ "

### === --- Python executable

PYTHON_ARGS=" ++ dq ++ PythonCall.args python ++ dq ++ "
PYTHON_EXEC=" ++ dq ++ PythonCall.path python ++ dq ++ String nl c)
               "/${JOBCODE}
mkdir -p ${JOBDIR}

### === --- Python scripts and arguments

")
    | apply (peel_two
               (fun c => "PYTHON_SCRIPT=" ++ PythonCall.script_name python
                         ++ "
PYTHON_SCRIPT_DIR=" ++ PythonCall.script_dir python ++ "

PYTHON_SCRIPT_ARGS=" ++ dq ++ PythonCall.script_args python ++ dq ++ "

### === --- Python executable

PYTHON_ARGS=" ++ dq ++ PythonCall.args python ++ dq ++ "
PYTHON_EXEC=" ++ dq ++ PythonCall.path python ++ dq ++ String nl c)) ].
Qed.

Lemma script_is_header_container_launcher_witness :
  exists o,
    generate_submission_script Example.header Example.python Example.srun
      Example.singularity None = Ok o
    /\ exists header_txt singularity_args srun_text a b c,
         SlurmHeader.__str__ Example.header = Ok header_txt
         /\ SingularityCall.full_args Example.singularity
            = Ok singularity_args
         /\ SrunCall.__str__ Example.srun = Ok srun_text
         /\ script o
            = header_txt ++ a
              ++ "SINGULARITY_ARGS=" ++ dq ++ singularity_args ++ dq ++ b
              ++ "### === --- srun call

" ++ srun_text ++ "

### === --- Print rank layout or not?

RUN_XTHI=" ++ "1" ++ String nl c.
Proof.
  eexists. split; [vm_compute; reflexivity|].
  apply (script_is_header_container_launcher Example.header Example.python
           Example.srun Example.singularity None).
  vm_compute; reflexivity.
Defined.

Lemma script_assigns_program_variables_witness :
  exists o,
    generate_submission_script Example.header Example.python Example.srun
      Example.singularity None = Ok o
    /\ exists a c,
         script o
         = a ++ "PYTHON_SCRIPT=" ++ "script.py" ++ "
PYTHON_SCRIPT_DIR=" ++ "examples" ++ "

PYTHON_SCRIPT_ARGS=" ++ dq ++ "--metrics_dir=${JOBDIR} --extra_arg=value"
           ++ dq ++ "

### === --- Python executable

PYTHON_ARGS=" ++ dq ++ "" ++ dq ++ "
PYTHON_EXEC=" ++ dq ++ "/home/firedrake/firedrake/bin/python" ++ dq
           ++ String nl c.
Proof.
  eexists. split; [vm_compute; reflexivity|].
  apply (script_assigns_program_variables Example.header Example.python
           Example.srun Example.singularity None).
  vm_compute; reflexivity.
Defined.

(** ** Paths and placeholders *)

(** A text without the first character of a placeholder is left as it is,
    and the scan goes through such a prefix unchanged. *)
Lemma replace_pair_through (a b : ascii) (new d s : string) :
  has_char a d = false ->
  replace (pair a b) new (d ++ s) = d ++ replace (pair a b) new s.
Proof.
  induction d as [|c d IH]; [reflexivity|]. cbn [has_char append].
  intros H. apply orb_false_elim in H. destruct H as [Hc Hd].
  rewrite replace_keep; [now rewrite IH | discriminate |].
  rewrite prefix_pair, Hc. reflexivity.
Qed.

Lemma replace_pair_absent (a b : ascii) (new s : string) :
  has_char a s = false -> replace (pair a b) new s = s.
Proof.
  intros H. rewrite <- (append_nil_r s) at 1.
  rewrite replace_pair_through by exact H.
  now rewrite replace_nil, append_nil_r by discriminate.
Qed.

Lemma has_char_append (c : ascii) (a b : string) :
  has_char c (a ++ b) = has_char c a || has_char c b.
Proof.
  induction a as [|x a IH]; [reflexivity|]. cbn [append has_char].
  now rewrite IH, orb_assoc.
Qed.

(** X17. When neither the job directory nor the pattern holds a percent
    sign, the resolved output (error) path is the job directory, a slash
    and the pattern, unchanged. *)
Theorem paths_without_percent_are_kept (header : SlurmHeader.t) :
  has_char "%" (SlurmHeader.job_directory header) = false ->
  (has_char "%" (SlurmHeader.output header) = false ->
   output_file header
   = SlurmHeader.job_directory header ++ "/" ++ SlurmHeader.output header)
  /\ (has_char "%" (SlurmHeader.error header) = false ->
      error_file header
      = SlurmHeader.job_directory header ++ "/" ++ SlurmHeader.error header).
Proof.
  intros Hd. unfold output_file, error_file.
  split; intros Hp;
    rewrite (replace_pair_absent "%" "x"), (replace_pair_absent "%" "j");
    try reflexivity;
    rewrite !has_char_append, Hd, Hp; reflexivity.
Qed.

(** X18. With the default pattern and a job directory without percent
    sign, the resolved path is the job directory followed by
    "/slurm-${SLURM_JOB_NAME}-${SLURM_JOB_ID}.out". *)
Theorem default_pattern_resolves_to_job_variables (header : SlurmHeader.t) :
  has_char "%" (SlurmHeader.job_directory header) = false ->
  (SlurmHeader.output header = "slurm-%x-%j.out" ->
   output_file header
   = SlurmHeader.job_directory header
     ++ "/slurm-${SLURM_JOB_NAME}-${SLURM_JOB_ID}.out")
  /\ (SlurmHeader.error header = "slurm-%x-%j.out" ->
      error_file header
      = SlurmHeader.job_directory header
        ++ "/slurm-${SLURM_JOB_NAME}-${SLURM_JOB_ID}.out").
Proof.
  intros Hd. unfold output_file, error_file.
  split; intros ->;
    change "%x" with (pair "%" "x"); change "%j" with (pair "%" "j");
    rewrite (replace_pair_through "%" "x") by exact Hd;
    rewrite (replace_pair_through "%" "j") by exact Hd; reflexivity.
Qed.

Lemma paths_without_percent_are_kept_witness :
  output_file Inputs.header_fixed_names = "results/job.out"
  /\ error_file Inputs.header_fixed_names = "results/job.err".
Proof.
  destruct (paths_without_percent_are_kept Inputs.header_fixed_names)
    as [Ho He]; [reflexivity|].
  split; [apply Ho | apply He]; reflexivity.
Defined.

Lemma default_pattern_resolves_to_job_variables_witness :
  output_file Inputs.header_minimal
  = "results/slurm-${SLURM_JOB_NAME}-${SLURM_JOB_ID}.out".
Proof.
  apply (default_pattern_resolves_to_job_variables Inputs.header_minimal);
    reflexivity.
Defined.

(** ** The time directive *)

Lemma parse_str_int (z : Z) : parse_int (str_int z) = Some z.
Proof.
  unfold parse_int, str_int. rewrite NilZero.isi.
  - cbn [option_map]. now rewrite DecimalZ.of_to.
  - destruct z; cbn [Z.to_int]; try discriminate.
    intros E. injection E as E.
    now apply DecimalPos.Unsigned.to_uint_nonnil in E.
  - destruct z; cbn [Z.to_int]; try discriminate.
    intros E. injection E as E.
    now apply DecimalPos.Unsigned.to_uint_nonnil in E.
Qed.

Lemma small_cases (P : Z -> Prop) (n : nat) :
  Forall P (range (Z.of_nat n)) -> forall t, 0 <= t < Z.of_nat n -> P t.
Proof.
  intros H t Ht. rewrite Forall_forall in H. apply H. now apply in_range.
Qed.

(** A field of the time is written in full and reads back as the number
    it was. *)
Lemma parse_fmt02 (t : Z) : parse_int (fmt02 t) = Some t.
Proof.
  unfold fmt02. destruct ((0 <=? t) && (t <? 10)) eqn:E;
    [|apply parse_str_int].
  apply andb_prop in E. destruct E as [E1 E2].
  apply Z.leb_le in E1. apply Z.ltb_lt in E2.
  revert t E1 E2.
  assert (H : forall t, 0 <= t < Z.of_nat 10 ->
                        parse_int ("0" ++ str_int t) = Some t).
  { apply small_cases. repeat constructor. }
  intros t E1 E2. apply H. lia.
Qed.

Lemma length_fmt02 (t : Z) :
  0 <= t < 100 -> String.length (fmt02 t) = 2%nat.
Proof.
  revert t.
  assert (H : forall t, 0 <= t < Z.of_nat 100 ->
                        String.length (fmt02 t) = 2%nat).
  { apply small_cases. apply Forall_forall. intros t Ht.
    assert (Hb : forallb (fun t => (String.length (fmt02 t) =? 2)%nat)
                   (range (Z.of_nat 100)) = true) by (vm_compute; reflexivity).
    rewrite forallb_forall in Hb. apply Nat.eqb_eq. now apply Hb. }
  intros t Ht. apply H. lia.
Qed.

(** X6. The mandatory block ends with the line
    "#SBATCH --time=HH:MM:SS" built from the three time fields; every field
    reads back as the number it was (none is truncated), and fields in
    [0, 100) take two characters each, eight in all. *)
Theorem time_directive_is_padded_and_exact (h : SlurmHeader.t)
    (job_directory : string) (hh mm ss : Z) :
  SlurmHeader.time h = (hh, mm, ss) ->
  is_suffix ("#SBATCH --time=" ++ fmt02 hh ++ ":" ++ fmt02 mm ++ ":"
             ++ fmt02 ss ++ String nl "")
    (SlurmHeader.mandatory_block h job_directory)
  /\ parse_int (fmt02 hh) = Some hh
  /\ parse_int (fmt02 mm) = Some mm
  /\ parse_int (fmt02 ss) = Some ss
  /\ (0 <= hh < 100 -> 0 <= mm < 100 -> 0 <= ss < 100 ->
      String.length (fmt02 hh ++ ":" ++ fmt02 mm ++ ":" ++ fmt02 ss) = 8%nat).
Proof.
  intros Ht. split; [|split; [|split; [|split]]]; try apply parse_fmt02.
  - unfold SlurmHeader.mandatory_block. rewrite Ht. cbn [map join].
    repeat first
      [ (exists "
#
"; rewrite ?append_assoc; reflexivity)
      | apply is_suffix_app ].
  - intros H1 H2 H3. rewrite !length_append, !length_fmt02 by assumption.
    reflexivity.
Qed.

Lemma time_directive_is_padded_and_exact_witness :
  is_suffix "#SBATCH --time=00:05:00
" (SlurmHeader.mandatory_block Example.header "results").
Proof.
  apply (time_directive_is_padded_and_exact Example.header "results" 0 5 0).
  reflexivity.
Defined.

(** ** The header: order, defaults, slash *)

Lemma lines_header_text (h : SlurmHeader.t) :
  plain_header h = true ->
  lines (header_text h) = (header_lines h ++ [""])%list.
Proof.
  intros H. rewrite header_text_unlines.
  apply lines_unlines. now apply newline_free_header_lines.
Qed.

Lemma header_renders (h : SlurmHeader.t) (text : string) :
  SlurmHeader.__str__ h = Ok text ->
  SlurmHeader.job_directory h <> "" /\ text = header_text h.
Proof.
  intros Hs.
  assert (Hjd : SlurmHeader.job_directory h <> "").
  { intros E. rewrite header_str_empty in Hs by exact E. discriminate. }
  rewrite header_str_nonempty in Hs by exact Hjd. injection Hs as <-.
  now split.
Qed.

(** X1. For a header that renders, whose string fields hold no newline
    and whose [bash_path] does not begin with "SBATCH --", the lines of the
    text are the fourteen mandatory lines, then a "#" and the directive for
    each optional that differs from its default, in the declared order,
    then a "#" and the bare directive for each flag that is set, in the
    declared order, then the empty line after the last newline. *)
Theorem header_lines_in_order (h : SlurmHeader.t) (text : string) :
  plain_header h = true ->
  SlurmHeader.__str__ h = Ok text ->
  lines text
  = (mandatory_lines h (stripped (SlurmHeader.job_directory h))
     ++ optional_lines "switches" (PyInt (SlurmHeader.switches h))
          (PyInt (-1))
     ++ optional_lines "distribution" (PyStr (SlurmHeader.distribution h))
          (PyStr "")
     ++ optional_lines "hint" (PyStr (SlurmHeader.hint h)) (PyStr "")
     ++ optional_lines "mail_user" (PyStr (SlurmHeader.mail_user h))
          (PyStr "")
     ++ optional_lines "mail_type" (PyStr (SlurmHeader.mail_type h))
          (PyStr "")
     ++ flag_lines "exclusive" (SlurmHeader.exclusive h)
     ++ flag_lines "requeue" (SlurmHeader.requeue h)
     ++ [""])%list.
Proof.
  intros Hp Hs. apply header_renders in Hs. destruct Hs as [_ ->].
  rewrite lines_header_text by exact Hp. unfold header_lines.
  now rewrite <- !app_assoc.
Qed.

Lemma header_lines_in_order_witness :
  plain_header Example.header = true
  /\ lines (header_text Example.header)
     = [ "#!/bin/bash"; "#"; "#SBATCH --account=e781";
         "#SBATCH --partition=standard"; "#SBATCH --qos=standard"; "#";
         "#SBATCH --job-name=test_job";
         "#SBATCH --output=results/slurm-%x-%j.out";
         "#SBATCH --error=results/slurm-%x-%j.out"; "#";
         "#SBATCH --nodes=1"; "#SBATCH --ntasks-per-node=2"; "#";
         "#SBATCH --time=00:05:00"; "#";
         "#SBATCH --distribution=block:block"; "#";
         "#SBATCH --hint=nomultithread"; "#"; "#SBATCH --exclusive"; "#";
         "#SBATCH --requeue"; "" ].
Proof.
  split; [reflexivity|].
  apply (header_lines_in_order Example.header (header_text Example.header));
    reflexivity.
Defined.

(** X2. With every optional at its declared default and both flags
    false, the rendered header is the mandatory block and nothing else. *)
Theorem header_at_defaults_is_mandatory_block (h : SlurmHeader.t) :
  SlurmHeader.job_directory h <> "" ->
  SlurmHeader.switches h = -1 ->
  SlurmHeader.distribution h = "" ->
  SlurmHeader.hint h = "" ->
  SlurmHeader.mail_user h = "" ->
  SlurmHeader.mail_type h = "" ->
  SlurmHeader.exclusive h = false ->
  SlurmHeader.requeue h = false ->
  SlurmHeader.__str__ h
  = Ok (SlurmHeader.mandatory_block h
          (stripped (SlurmHeader.job_directory h))).
Proof.
  intros Hd Hsw Hdi Hhi Hmu Hmt Hex Hrq.
  rewrite header_str_nonempty by exact Hd.
  unfold header_text, optionals_text, flags_text.
  rewrite Hsw, Hdi, Hhi, Hmu, Hmt, Hex, Hrq. cbn [optional_text py_eqb
    Z.eqb String.eqb negb append]. cbn. now rewrite !append_nil_r.
Qed.

Lemma header_at_defaults_is_mandatory_block_witness :
  SlurmHeader.__str__ Inputs.header_minimal
  = Ok "#!/bin/bash
#
#SBATCH --account=e781
#SBATCH --partition=standard
#SBATCH --qos=standard
#
#SBATCH --job-name=test_job
#SBATCH --output=results/slurm-%x-%j.out
#SBATCH --error=results/slurm-%x-%j.out
#
#SBATCH --nodes=1
#SBATCH --ntasks-per-node=2
#
#SBATCH --time=00:05:00
".
Proof.
  apply (header_at_defaults_is_mandatory_block Inputs.header_minimal);
    [discriminate | reflexivity ..].
Defined.

(** X5. For every [d], the job directory [d] followed by a slash renders
    as [d]: one trailing slash is removed, also when [d] is empty or itself
    ends with a slash; a non-empty [d] without trailing slash renders as
    [d]. *)
Theorem header_strips_exactly_one_slash (h : SlurmHeader.t) (d : string) :
  SlurmHeader.__str__ (with_job_directory (d ++ "/") h)
  = Ok ((SlurmHeader.mandatory_block h d ++ optionals_text h)
        ++ flags_text h)
  /\ (d <> "" -> last_char d <> Some "/"%char ->
      SlurmHeader.__str__ (with_job_directory d h)
      = Ok ((SlurmHeader.mandatory_block h d ++ optionals_text h)
            ++ flags_text h)).
Proof.
  split.
  - rewrite header_str_nonempty by (cbn; destruct d; discriminate).
    unfold header_text. cbn [with_job_directory SlurmHeader.job_directory].
    now rewrite stripped_slash.
  - intros Hd Hl. rewrite header_str_nonempty by exact Hd.
    unfold header_text. cbn [with_job_directory SlurmHeader.job_directory].
    now rewrite stripped_no_slash.
Qed.






(** X4. Whenever a header renders, a set [exclusive] puts its block right
    after the mandatory block and the text of the optionals, followed only
    by the block of [requeue] if that is set; a set [requeue] puts its
    block at the very end of the text. *)
Theorem set_flag_is_emitted (h : SlurmHeader.t) (text : string) :
  SlurmHeader.__str__ h = Ok text ->
  (SlurmHeader.exclusive h = true ->
   text
   = SlurmHeader.mandatory_block h (stripped (SlurmHeader.job_directory h))
     ++ optionals_text h ++ "#
#SBATCH --exclusive
" ++ (if SlurmHeader.requeue h then "#
#SBATCH --requeue
" else ""))
  /\ (SlurmHeader.requeue h = true ->
      is_suffix "#
#SBATCH --requeue
" text).
Proof.
  intros Hs. apply header_renders in Hs. destruct Hs as [_ ->].
  unfold header_text, flags_text. split; intros E; rewrite E.
  - rewrite !append_assoc.
    now destruct (SlurmHeader.requeue h).
  - eexists. rewrite <- !append_assoc. reflexivity.
Qed.

Lemma set_flag_is_emitted_witness :
  header_text Example.header
  = SlurmHeader.mandatory_block Example.header "results"
    ++ optionals_text Example.header ++ "#
#SBATCH --exclusive
" ++ "#
#SBATCH --requeue
"
  /\ is_suffix "#
#SBATCH --requeue
" (header_text Example.header).
Proof.
  destruct (set_flag_is_emitted Example.header (header_text Example.header))
    as [Hx Hr]; [reflexivity|].
  split; [apply Hx | apply Hr]; reflexivity.
Defined.

(** ** The launcher without affinity *)

(** X8. An affinity triple without a positive value is an unset one:
    zeros and negative numbers alike, the launcher renders only SRUN_ARGS
    and SRUN_CALL, exactly as for the defaults (-1, -1, -1). *)
Theorem srun_non_positive_values_are_unset (s : SrunCall.t) :
  ~ any_positive s ->
  SrunCall.__str__ s
  = Ok ("
SRUN_ARGS=" ++ dq ++ SrunCall.args s ++ dq ++ "
SRUN_CALL=" ++ dq ++ "srun ${SRUN_ARGS}" ++ dq ++ "
")
  /\ SrunCall.__str__ s
     = SrunCall.__str__
         (SrunCall.mk (-1) (-1) (-1) (SrunCall.args s) (SrunCall.xthi s)).
Proof.
  intros Hn.
  destruct (srun_str_cases s) as [[Ha _]|[[_ E]|[Ha _]]].
  - exfalso. apply Hn. unfold any_positive, all_positive in *. lia.
  - rewrite E. split; reflexivity.
  - contradiction.
Qed.

Lemma srun_non_positive_values_are_unset_witness :
  SrunCall.__str__ Inputs.srun_zero
  = SrunCall.__str__
      (SrunCall.mk (-1) (-1) (-1) "--hint=nomultithread" false).
Proof.
  apply (srun_non_positive_values_are_unset Inputs.srun_zero).
  unfold any_positive. cbn. lia.
Defined.

(** ** Reading a header back *)

Lemma str_int_inj (a b : Z) : str_int a = str_int b -> a = b.
Proof.
  intros H. apply (f_equal parse_int) in H.
  rewrite !parse_str_int in H. congruence.
Qed.

Lemma fmt02_inj (a b : Z) : fmt02 a = fmt02 b -> a = b.
Proof.
  intros H. apply (f_equal parse_int) in H.
  rewrite !parse_fmt02 in H. congruence.
Qed.

Lemma colon_free_uint (d : Decimal.uint) :
  has_char ":" (NilEmpty.string_of_uint d) = false.
Proof. induction d; cbn [NilEmpty.string_of_uint has_char]; auto. Qed.

Lemma colon_free_str_int (z : Z) : has_char ":" (str_int z) = false.
Proof.
  unfold str_int, NilZero.string_of_int, NilZero.string_of_uint.
  destruct (Z.to_int z) as [d|d]; destruct d; cbn [has_char];
    try reflexivity;
    match goal with
    | |- context [NilEmpty.string_of_uint ?u] => apply (colon_free_uint u)
    end.
Qed.

Lemma colon_free_fmt02 (z : Z) : has_char ":" (fmt02 z) = false.
Proof.
  unfold fmt02. destruct ((0 <=? z) && (z <? 10));
    [cbn [append has_char]|]; apply colon_free_str_int.
Qed.

(** A text is cut at its first occurrence of a character in one way. *)
Lemma cut_unique (c : ascii) (a1 a2 r1 r2 : string) :
  has_char c a1 = false -> has_char c a2 = false ->
  a1 ++ String c r1 = a2 ++ String c r2 -> a1 = a2 /\ r1 = r2.
Proof.
  revert a2. induction a1 as [|x a1 IH]; intros [|y a2] H1 H2 H;
    cbn [append has_char] in *.
  - injection H as ->. now split.
  - injection H as <- _. rewrite Ascii.eqb_refl in H2. discriminate.
  - injection H as -> _. rewrite Ascii.eqb_refl in H1. discriminate.
  - apply orb_false_elim in H1. apply orb_false_elim in H2.
    injection H as -> H. destruct (IH a2) as [-> ->]; tauto.
Qed.

Lemma time_text_inj (h1 h2 : SlurmHeader.t) :
  time_text h1 = time_text h2 -> SlurmHeader.time h1 = SlurmHeader.time h2.
Proof.
  unfold time_text.
  destruct (SlurmHeader.time h1) as [[a1 b1] c1].
  destruct (SlurmHeader.time h2) as [[a2 b2] c2].
  cbn [map join]. intros H.
  apply cut_unique in H; try apply colon_free_fmt02. destruct H as [Ha H].
  apply cut_unique in H; try apply colon_free_fmt02. destruct H as [Hb Hc].
  apply fmt02_inj in Ha, Hb, Hc. congruence.
Qed.

(** The directive line of an optional is a line of the header exactly for
    the configured value, when that is not the default. *)
Ltac settle_line Hb :=
  match goal with
  | H : False |- _ => destruct H
  | H : _ = _ |- _ => discriminate H
  | H : String "#" (SlurmHeader.bash_path _) = String "#" _ |- _ =>
      injection H as H; rewrite H in Hb; cbn in Hb; discriminate Hb
  | Hc : (_ =? _)%string = false, H : String "#" _ = String "#" _ |- _ =>
      injection H as H; apply String.eqb_neq in Hc; split; congruence
  | Hc : (_ =? _) = false, H : String "#" _ = String "#" _ |- _ =>
      injection H as H; apply str_int_inj in H; apply Z.eqb_neq in Hc;
      split; congruence
  end.

Ltac settle_lines H Hb :=
  cbn [append] in H;
  repeat match type of H with
         | _ \/ _ => destruct H as [H|H]
         | _ /\ _ => let Hc := fresh "Hc" in destruct H as [Hc H]
         end;
  settle_line Hb.

Ltac open_header_lines Hp Hb :=
  apply plain_header_fields in Hp; destruct Hp as [_ Hb];
  rewrite in_header_lines; unfold mandatory_lines, optional_directive;
  change (replace "_" "-" "switches") with "switches";
  change (replace "_" "-" "distribution") with "distribution";
  change (replace "_" "-" "hint") with "hint";
  change (replace "_" "-" "mail_user") with "mail-user";
  change (replace "_" "-" "mail_type") with "mail-type";
  cbn [In py_format py_eqb].

Ltac string_directive nav :=
  let Hp := fresh "Hp" in let Hb := fresh "Hb" in let H := fresh "H" in
  intros Hp; open_header_lines Hp Hb; split;
  [ intros H; settle_lines H Hb
  | intros [<- H]; apply String.eqb_neq in H; nav; left;
    split; [exact H | right; reflexivity] ].

Lemma switches_line (h : SlurmHeader.t) (z : Z) :
  plain_header h = true ->
  In ("#SBATCH --switches=" ++ str_int z) (header_lines h)
  <-> SlurmHeader.switches h = z /\ z <> -1.
Proof.
  intros Hp. open_header_lines Hp Hb. split.
  - intros H. settle_lines H Hb.
  - intros [<- H]. apply Z.eqb_neq in H. do 1 right. left.
    split; [exact H | right; reflexivity].
Qed.

Lemma distribution_line (h : SlurmHeader.t) (v : string) :
  plain_header h = true ->
  In ("#SBATCH --distribution=" ++ v) (header_lines h)
  <-> SlurmHeader.distribution h = v /\ v <> "".
Proof. string_directive ltac:(do 2 right). Qed.

Lemma hint_line (h : SlurmHeader.t) (v : string) :
  plain_header h = true ->
  In ("#SBATCH --hint=" ++ v) (header_lines h)
  <-> SlurmHeader.hint h = v /\ v <> "".
Proof. string_directive ltac:(do 3 right). Qed.

Lemma mail_user_line (h : SlurmHeader.t) (v : string) :
  plain_header h = true ->
  In ("#SBATCH --mail-user=" ++ v) (header_lines h)
  <-> SlurmHeader.mail_user h = v /\ v <> "".
Proof. string_directive ltac:(do 4 right). Qed.

Lemma mail_type_line (h : SlurmHeader.t) (v : string) :
  plain_header h = true ->
  In ("#SBATCH --mail-type=" ++ v) (header_lines h)
  <-> SlurmHeader.mail_type h = v /\ v <> "".
Proof. string_directive ltac:(do 5 right). Qed.

Ltac flag_line nav :=
  let Hp := fresh "Hp" in let Hb := fresh "Hb" in let H := fresh "H" in
  intros Hp; open_header_lines Hp Hb; split;
  [ intros H; cbn [append] in H;
    repeat match type of H with
           | _ \/ _ => destruct H as [H|H]
           | _ /\ _ => let Hc := fresh "Hc" in destruct H as [Hc H]
           end;
    first [ assumption | settle_line Hb ]
  | intros H; nav; split; [exact H | right; reflexivity] ].

Lemma exclusive_line (h : SlurmHeader.t) :
  plain_header h = true ->
  In "#SBATCH --exclusive" (header_lines h)
  <-> SlurmHeader.exclusive h = true.
Proof. flag_line ltac:(do 6 right; left). Qed.

Lemma requeue_line (h : SlurmHeader.t) :
  plain_header h = true ->
  In "#SBATCH --requeue" (header_lines h) <-> SlurmHeader.requeue h = true.
Proof. flag_line ltac:(do 7 right). Qed.

(** A value that decides the presence of its own line is determined by
    the lines. *)
Lemma optional_from_lines (A : Type) (field : SlurmHeader.t -> A)
    (line : A -> string) (default : A)
    (dec : forall a, a = default \/ a <> default) :
  (forall h v, plain_header h = true ->
               In (line v) (header_lines h)
               <-> field h = v /\ v <> default) ->
  forall h1 h2,
    plain_header h1 = true -> plain_header h2 = true ->
    header_lines h1 = header_lines h2 -> field h1 = field h2.
Proof.
  intros Hline h1 h2 Hp1 Hp2 Hl.
  destruct (dec (field h1)) as [E1|N1].
  - destruct (dec (field h2)) as [E2|N2]; [congruence|].
    assert (H : In (line (field h2)) (header_lines h2))
      by (apply Hline; [exact Hp2 | now split]).
    rewrite <- Hl in H. apply Hline in H; [|exact Hp1]. tauto.
  - assert (H : In (line (field h1)) (header_lines h1))
      by (apply Hline; [exact Hp1 | now split]).
    rewrite Hl in H. apply Hline in H; [|exact Hp2]. now destruct H.
Qed.

Lemma flag_from_lines (field : SlurmHeader.t -> bool) (line : string) :
  (forall h, plain_header h = true ->
             In line (header_lines h) <-> field h = true) ->
  forall h1 h2,
    plain_header h1 = true -> plain_header h2 = true ->
    header_lines h1 = header_lines h2 -> field h1 = field h2.
Proof.
  intros Hline h1 h2 Hp1 Hp2 Hl.
  pose proof (Hline h1 Hp1) as H1. pose proof (Hline h2 Hp2) as H2.
  rewrite Hl in H1.
  destruct (field h1), (field h2); try reflexivity.
  - symmetry. apply H2, H1. reflexivity.
  - apply H1, H2. reflexivity.
Qed.

Lemma cons_inj (A : Type) (a b : A) (l m : list A) :
  a :: l = b :: m -> a = b /\ l = m.
Proof. intros H. injection H as -> ->. now split. Qed.

Lemma string_default_or_not (s : string) : s = "" \/ s <> "".
Proof. destruct (String.eqb_spec s ""); tauto. Qed.

(** X7. Rendering loses nothing but the split between the job directory
    and the file patterns: two headers whose string fields hold no newline
    and whose [bash_path] does not begin with "SBATCH --", and which render
    to the same text, agree on every other field, and on the output and
    error paths as the header shows them. *)
Theorem plain_header_reads_back (h1 h2 : SlurmHeader.t) (text : string) :
  plain_header h1 = true -> plain_header h2 = true ->
  SlurmHeader.__str__ h1 = Ok text -> SlurmHeader.__str__ h2 = Ok text ->
  SlurmHeader.bash_path h1 = SlurmHeader.bash_path h2
  /\ SlurmHeader.account h1 = SlurmHeader.account h2
  /\ SlurmHeader.partition h1 = SlurmHeader.partition h2
  /\ SlurmHeader.qos h1 = SlurmHeader.qos h2
  /\ SlurmHeader.job_name h1 = SlurmHeader.job_name h2
  /\ SlurmHeader.nodes h1 = SlurmHeader.nodes h2
  /\ SlurmHeader.ntasks_per_node h1 = SlurmHeader.ntasks_per_node h2
  /\ SlurmHeader.time h1 = SlurmHeader.time h2
  /\ SlurmHeader.switches h1 = SlurmHeader.switches h2
  /\ SlurmHeader.distribution h1 = SlurmHeader.distribution h2
  /\ SlurmHeader.hint h1 = SlurmHeader.hint h2
  /\ SlurmHeader.mail_user h1 = SlurmHeader.mail_user h2
  /\ SlurmHeader.mail_type h1 = SlurmHeader.mail_type h2
  /\ SlurmHeader.exclusive h1 = SlurmHeader.exclusive h2
  /\ SlurmHeader.requeue h1 = SlurmHeader.requeue h2
  /\ stripped (SlurmHeader.job_directory h1) ++ "/" ++ SlurmHeader.output h1
     = stripped (SlurmHeader.job_directory h2) ++ "/"
       ++ SlurmHeader.output h2
  /\ stripped (SlurmHeader.job_directory h1) ++ "/" ++ SlurmHeader.error h1
     = stripped (SlurmHeader.job_directory h2) ++ "/" ++ SlurmHeader.error h2.
Proof.
  intros Hp1 Hp2 Hs1 Hs2.
  apply header_renders in Hs1. destruct Hs1 as [_ E1].
  apply header_renders in Hs2. destruct Hs2 as [_ E2].
  assert (Hl : header_lines h1 = header_lines h2).
  { apply (app_inv_tail [""]).
    rewrite <- !lines_header_text by assumption. congruence. }
  pose proof Hl as Hm. unfold header_lines, mandatory_lines in Hm.
  cbn [app] in Hm.
  repeat (apply cons_inj in Hm;
          let Hx := fresh "Hx" in destruct Hm as [Hx Hm]).
  repeat match goal with
         | H : ?p ++ _ = ?p ++ _ |- _ => apply append_inv_head in H
         end.
  repeat match goal with
         | H : str_int _ = str_int _ |- _ => apply str_int_inj in H
         | H : time_text _ = time_text _ |- _ => apply time_text_inj in H
         end.
  repeat split; try assumption.
  - apply (optional_from_lines Z SlurmHeader.switches
             (fun z => "#SBATCH --switches=" ++ str_int z) (-1));
      [intros a; lia | apply switches_line | assumption ..].
  - apply (optional_from_lines string SlurmHeader.distribution
             (fun v => "#SBATCH --distribution=" ++ v) "");
      [apply string_default_or_not | apply distribution_line
      | assumption ..].
  - apply (optional_from_lines string SlurmHeader.hint
             (fun v => "#SBATCH --hint=" ++ v) "");
      [apply string_default_or_not | apply hint_line | assumption ..].
  - apply (optional_from_lines string SlurmHeader.mail_user
             (fun v => "#SBATCH --mail-user=" ++ v) "");
      [apply string_default_or_not | apply mail_user_line | assumption ..].
  - apply (optional_from_lines string SlurmHeader.mail_type
             (fun v => "#SBATCH --mail-type=" ++ v) "");
      [apply string_default_or_not | apply mail_type_line | assumption ..].
  - apply (flag_from_lines SlurmHeader.exclusive "#SBATCH --exclusive");
      [apply exclusive_line | assumption ..].
  - apply (flag_from_lines SlurmHeader.requeue "#SBATCH --requeue");
      [apply requeue_line | assumption ..].
Qed.

Lemma plain_header_reads_back_witness :
  SlurmHeader.__str__ Example.header_slash
  = SlurmHeader.__str__ Example.header
  /\ SlurmHeader.hint Example.header_slash = SlurmHeader.hint Example.header
  /\ SlurmHeader.time Example.header_slash = SlurmHeader.time Example.header.
Proof.
  split; [reflexivity|].
  destruct (plain_header_reads_back Example.header_slash Example.header
              (header_text Example.header))
    as (_ & _ & _ & _ & _ & _ & _ & Ht & _ & _ & Hh & _);
    [reflexivity | reflexivity | reflexivity | reflexivity |].
  split; [exact Hh | exact Ht].
Defined.

(** ** The affinity block at run time *)

(** *** Numerals *)

Lemma all_digits_uint (d : Decimal.uint) :
  all_digits (NilEmpty.string_of_uint d) = true.
Proof. induction d; cbn [NilEmpty.string_of_uint all_digits]; auto. Qed.

Lemma all_digits_str_int (z : Z) :
  0 <= z -> all_digits (str_int z) = true /\ str_int z <> "".
Proof.
  intros Hz. unfold str_int. destruct z as [|p|p]; [now split| |lia].
  cbn [Z.to_int NilZero.string_of_int]. unfold NilZero.string_of_uint.
  pose proof (DecimalPos.Unsigned.to_uint_nonnil p) as Hn.
  destruct (Pos.to_uint p) eqn:E; try congruence;
    rewrite <- E; (split; [apply all_digits_uint|]);
    rewrite E; discriminate.
Qed.

Lemma all_digits_plain (s : string) : all_digits s = true -> all_plain s = true.
Proof.
  induction s as [|c s IH]; [reflexivity|]. cbn [all_digits all_plain].
  intros H. apply andb_prop in H. destruct H as [Hc Hs].
  unfold is_plain. rewrite Hc, IH by exact Hs. now rewrite orb_true_r.
Qed.

Lemma all_digits_no_char (c : ascii) (s : string) :
  is_digit c = false -> all_digits s = true -> has_char c s = false.
Proof.
  intros Hc. induction s as [|x s IH]; [reflexivity|].
  cbn [all_digits has_char]. intros H. apply andb_prop in H.
  destruct H as [Hx Hs]. rewrite IH by exact Hs.
  destruct (Ascii.eqb_spec c x) as [->|]; [congruence | reflexivity].
Qed.

(** *** The lexer *)

Lemma lex_run_app (a b : string) (st : lex_state) :
  lex_run st (a ++ b)
  = match lex_run st a with
    | Some (ts, st') =>
        match lex_run st' b with
        | Some (ts', st'') => Some ((ts ++ ts')%list, st'')
        | None => None
        end
    | None => None
    end.
Proof.
  revert st. induction a as [|c a IH]; intros st; cbn [append lex_run].
  - now destruct (lex_run st b) as [[ts' st'']|].
  - destruct (lex_step st c) as [[ts st']|]; [|reflexivity].
    rewrite IH. destruct (lex_run st' a) as [[ts1 st1]|]; [|reflexivity].
    destruct (lex_run st1 b) as [[ts2 st2]|]; [|reflexivity].
    now rewrite app_assoc.
Qed.

Lemma lex_run_more_digits (acc ds : string) :
  all_digits ds = true ->
  lex_run (LNum acc) ds = Some ([], LNum (acc ++ ds)).
Proof.
  revert acc. induction ds as [|c ds IH]; intros acc H.
  - now rewrite append_nil_r.
  - cbn [all_digits] in H. apply andb_prop in H. destruct H as [Hc Hs].
    cbn [lex_run lex_step]. rewrite Hc, IH by exact Hs.
    now rewrite append_assoc.
Qed.

Lemma lex_run_digits (ds : string) :
  all_digits ds = true -> ds <> "" ->
  lex_run LIdle ds = Some ([], LNum ds).
Proof.
  intros H Hne. destruct ds as [|c ds]; [congruence|].
  cbn [all_digits] in H. apply andb_prop in H. destruct H as [Hc Hs].
  cbn [lex_run lex_step]. unfold lex_idle. rewrite Hc.
  now rewrite lex_run_more_digits by exact Hs.
Qed.

(** The program of the CPU map, with numerals in its three holes. *)
Lemma tokenize_cpu_map_program (a b c : string) :
  all_digits a = true -> a <> "" ->
  all_digits b = true -> b <> "" ->
  all_digits c = true -> c <> "" ->
  tokenize ("print(','.join(map(str,filter(lambda i: (i%" ++ a ++ ")<"
            ++ b ++ ", range(" ++ c ++ ")))))")
  = Some [TName "print"; TSym "("; TStr ","; TSym "."; TName "join";
          TSym "("; TName "map"; TSym "("; TName "str"; TSym ",";
          TName "filter"; TSym "("; TName "lambda"; TName "i"; TSym ":";
          TSym "("; TName "i"; TSym "%"; TNum a; TSym ")"; TSym "<";
          TNum b; TSym ","; TName "range"; TSym "("; TNum c; TSym ")";
          TSym ")"; TSym ")"; TSym ")"; TSym ")"]%char.
Proof.
  intros Ha Hna Hb Hnb Hc Hnc. unfold tokenize.
  rewrite lex_run_app.
  replace (lex_run LIdle "print(','.join(map(str,filter(lambda i: (i%")
    with (Some ([TName "print"; TSym "("; TStr ","; TSym "."; TName "join";
                 TSym "("; TName "map"; TSym "("; TName "str"; TSym ",";
                 TName "filter"; TSym "("; TName "lambda"; TName "i";
                 TSym ":"; TSym "("; TName "i"; TSym "%"]%char, LIdle))
    by reflexivity.
  rewrite lex_run_app, (lex_run_digits a) by assumption.
  rewrite lex_run_app.
  replace (lex_run (LNum a) ")<")
    with (Some ([TNum a; TSym ")"; TSym "<"]%char, LIdle)) by reflexivity.
  rewrite lex_run_app, (lex_run_digits b) by assumption.
  rewrite lex_run_app.
  replace (lex_run (LNum b) ", range(")
    with (Some ([TNum b; TSym ","; TName "range"; TSym "("]%char, LIdle))
    by reflexivity.
  rewrite lex_run_app, (lex_run_digits c) by assumption.
  replace (lex_run (LNum c) ")))))")
    with (Some ([TNum c; TSym ")"; TSym ")"; TSym ")"; TSym ")";
                 TSym ")"]%char, LIdle)) by reflexivity.
  reflexivity.
Qed.

Lemma parse_cpu_map_program (a b c : string) :
  parse [TName "print"; TSym "("; TStr ","; TSym "."; TName "join";
         TSym "("; TName "map"; TSym "("; TName "str"; TSym ",";
         TName "filter"; TSym "("; TName "lambda"; TName "i"; TSym ":";
         TSym "("; TName "i"; TSym "%"; TNum a; TSym ")"; TSym "<";
         TNum b; TSym ","; TName "range"; TSym "("; TNum c; TSym ")";
         TSym ")"; TSym ")"; TSym ")"; TSym ")"]%char
  = Some (ECall (EName "print") [cpu_map_expr a b c]).
Proof. vm_compute. reflexivity. Qed.

(** *** The evaluator *)

Lemma map_m_map (A B C : Type) (f : B -> option C) (g : A -> B)
    (h : A -> C) (l : list A) :
  (forall x, f (g x) = Some (h x)) -> map_m f (map g l) = Some (map h l).
Proof.
  intros H. induction l as [|x l IH]; [reflexivity|].
  cbn [map map_m]. now rewrite H, IH.
Qed.

Lemma filter_m_map (A B : Type) (f : B -> option bool) (g : A -> B)
    (p : A -> bool) (l : list A) :
  (forall x, f (g x) = Some (p x)) ->
  filter_m f (map g l) = Some (map g (filter p l)).
Proof.
  intros H. induction l as [|x l IH]; [reflexivity|].
  cbn [map filter filter_m]. rewrite H, IH. now destruct (p x).
Qed.

Lemma eval_S (n : nat) (env : list (string * value)) (e : expr) :
  eval (S n) env e
  = match e with
    | EName x =>
        match lookup_value env x with
        | Some v => Some v
        | None => if is_builtin x then Some (VBuiltin x) else None
        end
    | ENum d => option_map VInt (parse_int d)
    | EStr s => Some (VStr s)
    | EAttr e' x =>
        match eval n env e' with
        | Some (VStr sep) =>
            if String.eqb x "join" then Some (VJoin sep) else None
        | _ => None
        end
    | ECall f args =>
        match eval n env f with
        | Some fv =>
            match map_m (eval n env) args with
            | Some avs => apply n fv avs
            | None => None
            end
        | None => None
        end
    | ELambda x body => Some (VClosure x body env)
    | EBin op l r =>
        match eval n env l, eval n env r with
        | Some (VInt a), Some (VInt b) =>
            match op with
            | Mod => if b =? 0 then None else Some (VInt (a mod b))
            | Lt => Some (VBool (a <? b))
            end
        | _, _ => None
        end
    end.
Proof. reflexivity. Qed.

Lemma apply_closure (n : nat) (x : string) (body : expr)
    (env : list (string * value)) (a : value) :
  apply (S n) (VClosure x body env) [a] = eval n ((x, a) :: env) body.
Proof. reflexivity. Qed.

Lemma apply_range (n : nat) (k : Z) :
  apply (S n) (VBuiltin "range") [VInt k] = Some (VList (map VInt (range k))).
Proof. reflexivity. Qed.

Lemma apply_str_int (n : nat) (k : Z) :
  apply (S n) (VBuiltin "str") [VInt k] = Some (VStr (str_int k)).
Proof. reflexivity. Qed.

Lemma apply_map (n : nat) (g : value) (l : list value) :
  apply (S n) (VBuiltin "map") [g; VList l]
  = option_map VList (map_m (fun x => apply n g [x]) l).
Proof. now destruct g. Qed.

Lemma apply_filter (n : nat) (g : value) (l : list value) :
  apply (S n) (VBuiltin "filter") [g; VList l]
  = option_map VList
      (filter_m (fun x => option_map truthy (apply n g [x])) l).
Proof. now destruct g. Qed.

Lemma apply_join (n : nat) (sep : string) (l : list value) :
  apply (S n) (VJoin sep) [VList l]
  = option_map (fun ss => VStr (join sep ss)) (map_m as_str l).
Proof. reflexivity. Qed.

(** The test of the lambda, at one core. *)
Lemma eval_cpu_map_test (a b : string) (az bz i : Z) (n : nat) :
  parse_int a = Some az -> parse_int b = Some bz -> az <> 0 ->
  eval (S (S (S n))) [("i", VInt i)]
    (EBin Lt (EBin Mod (EName "i") (ENum a)) (ENum b))
  = Some (VBool ((i mod az) <? bz)).
Proof.
  intros Ha Hb Hz. rewrite eval_S.
  rewrite (eval_S _ _ (EBin Mod _ _)), (eval_S _ _ (ENum b)).
  rewrite (eval_S _ _ (EName "i")), (eval_S _ _ (ENum a)).
  rewrite Ha, Hb. cbn [option_map].
  replace (lookup_value [("i", VInt i)] "i") with (Some (VInt i))
    by reflexivity.
  apply Z.eqb_neq in Hz. rewrite Hz. reflexivity.
Qed.

Lemma eval_cpu_map_expr (a b c : string) (az bz cz : Z) (n : nat) :
  parse_int a = Some az -> parse_int b = Some bz -> parse_int c = Some cz ->
  az <> 0 ->
  eval (10 + n) [] (cpu_map_expr a b c)
  = Some (VStr (join "," (map str_int
                            (filter (fun i => (i mod az) <? bz)
                               (range cz))))).
Proof.
  intros Ha Hb Hc Hz. cbn [Nat.add]. unfold cpu_map_expr.
  (* the call of join *)
  rewrite eval_S. rewrite (eval_S _ _ (EAttr _ _)), (eval_S _ _ (EStr _)).
  replace (String.eqb "join" "join") with true by reflexivity.
  cbn [map_m].
  (* the call of map *)
  rewrite (eval_S _ _ (ECall (EName "map") _)).
  rewrite (eval_S _ _ (EName "map")).
  replace (lookup_value [] "map") with (@None value) by reflexivity.
  replace (is_builtin "map") with true by reflexivity.
  cbn [map_m]. rewrite (eval_S _ _ (EName "str")).
  replace (lookup_value [] "str") with (@None value) by reflexivity.
  replace (is_builtin "str") with true by reflexivity.
  (* the call of filter *)
  rewrite (eval_S _ _ (ECall (EName "filter") _)).
  rewrite (eval_S _ _ (EName "filter")).
  replace (lookup_value [] "filter") with (@None value) by reflexivity.
  replace (is_builtin "filter") with true by reflexivity.
  cbn [map_m]. rewrite (eval_S _ _ (ELambda _ _)).
  (* the call of range *)
  rewrite (eval_S _ _ (ECall (EName "range") _)).
  rewrite (eval_S _ _ (EName "range")).
  replace (lookup_value [] "range") with (@None value) by reflexivity.
  replace (is_builtin "range") with true by reflexivity.
  cbn [map_m]. rewrite (eval_S _ _ (ENum c)), Hc. cbn [option_map].
  rewrite apply_range, apply_filter.
  rewrite (filter_m_map Z value _ VInt (fun i => (i mod az) <? bz)).
  - cbn [option_map]. rewrite apply_map.
    rewrite (map_m_map Z value value _ VInt (fun i => VStr (str_int i)))
      by (intros i; apply apply_str_int).
    cbn [option_map]. rewrite apply_join.
    rewrite (map_m_map Z value string as_str _ str_int) by reflexivity.
    reflexivity.
  - intros i. rewrite apply_closure.
    rewrite (eval_cpu_map_test a b az bz i) by assumption.
    reflexivity.
Qed.

(** *** The program and the command substitution *)

Lemma newline_free_join_ints (l : list Z) :
  newline_free (join "," (map str_int l)) = true.
Proof.
  induction l as [|x l IH]; [reflexivity|].
  destruct l as [|y l]; [apply newline_free_str_int|].
  change (join "," (map str_int (x :: y :: l)))
    with (str_int x ++ "," ++ join "," (map str_int (y :: l))).
  now rewrite !newline_free_append, newline_free_str_int, IH.
Qed.

Lemma strip_newlines_line (x : string) :
  newline_free x = true -> strip_newlines (x ++ String nl "") = x.
Proof.
  induction x as [|c x IH]; [reflexivity|]. cbn [newline_free append].
  intros H. apply andb_prop in H. destruct H as [Hc Hx].
  apply negb_true_iff in Hc. cbn [strip_newlines].
  rewrite IH by exact Hx. rewrite Hc. now destruct x.
Qed.

Lemma python_stdout_cpu_map (l3cores l3size nodesize : Z) :
  0 <= l3cores -> 0 < l3size -> 0 <= nodesize ->
  python_stdout ("print(','.join(map(str,filter(lambda i: (i%"
                 ++ str_int l3size ++ ")<" ++ str_int l3cores
                 ++ ", range(" ++ str_int nodesize ++ ")))))")
  = Some (join "," (map str_int (cpu_map_select l3cores l3size nodesize))
          ++ String nl "").
Proof.
  intros Hc Hs Hn. unfold python_stdout.
  destruct (all_digits_str_int l3cores Hc) as [Dc Nc].
  destruct (all_digits_str_int l3size) as [Ds Ns]; [lia|].
  destruct (all_digits_str_int nodesize Hn) as [Dn Nn].
  rewrite tokenize_cpu_map_program by assumption.
  rewrite parse_cpu_map_program.
  replace (String.eqb "print" "print") with true by reflexivity.
  change recursion_limit with (10 + 990)%nat.
  rewrite (eval_cpu_map_expr _ _ _ l3size l3cores nodesize)
    by (try apply parse_str_int; lia).
  reflexivity.
Qed.

(** *** The block *)

Lemma affinity_block_unlines (s : SrunCall.t) :
  SrunCall.affinity_block s
  = unlines
      [ "";
        "# L3 cache is the lowest level of shared memory, with L3SIZE cores per cache";
        "# and NODESIZE/L3SIZE L3 caches per node. Using fewer than L3SIZE cores/L3";
        "# cache may improve strong scaling performance for memory bound applications.";
        "# The ntasks-per-node value must be equal to L3CORES*(NODESIZE/L3SIZE).";
        "";
        "L3CORES=" ++ str_int (SrunCall.l3cores s);
        "L3SIZE=" ++ str_int (SrunCall.l3size s);
        "NODESIZE=" ++ str_int (SrunCall.nodesize s);
        "";
        "CPU_MAP=" ++ SrunCall.cpu_map_cmd_default ].
Proof.
  unfold SrunCall.affinity_block.
  generalize (str_int (SrunCall.l3cores s)), (str_int (SrunCall.l3size s)),
    (str_int (SrunCall.nodesize s)), SrunCall.cpu_map_cmd_default.
  intros a b c cmd. cbn [unlines]. rewrite !append_assoc. reflexivity.
Qed.

Lemma shell_line_numeral (env : list (string * string))
    (line name digits : string) (c : ascii) (rest : string) :
  line = String c rest -> Ascii.eqb c "#" = false ->
  split_assignment line = Some (name, digits) ->
  all_digits digits = true ->
  shell_line env line = Some ((name, digits) :: env).
Proof.
  intros -> Hc Hsplit Hd. unfold shell_line, word_value.
  rewrite Hc, Hsplit. now rewrite all_digits_plain by exact Hd.
Qed.

(** The last line of the block: the command substitution runs the program
    with the three numerals in. *)
Lemma shell_line_cpu_map (a b c : string) (env : list (string * string)) :
  shell_line (("NODESIZE", c) :: ("L3SIZE", a) :: ("L3CORES", b) :: env)
    ("CPU_MAP=" ++ SrunCall.cpu_map_cmd_default)
  = match python_stdout
            ("print(','.join(map(str,filter(lambda i: (i%" ++ a ++ ")<"
             ++ b ++ ", range(" ++ c ++ ")))))") with
    | Some out =>
        Some (("CPU_MAP", strip_newlines out)
              :: ("NODESIZE", c) :: ("L3SIZE", a) :: ("L3CORES", b) :: env)
    | None => None
    end.
Proof.
  lazy -[python_stdout strip_newlines].
  now destruct (python_stdout _).
Qed.

(** The value of [CPU_MAP] after the block: the selection of the program,
    comma-joined. *)
Lemma cpu_map_of_eq (s : SrunCall.t) :
  0 <= SrunCall.l3cores s -> 0 < SrunCall.l3size s ->
  0 <= SrunCall.nodesize s ->
  cpu_map_of s
  = Some (join "," (map str_int
                      (cpu_map_select (SrunCall.l3cores s)
                         (SrunCall.l3size s) (SrunCall.nodesize s)))).
Proof.
  intros Hc Hs Hn. unfold cpu_map_of, shell_run.
  destruct (all_digits_str_int _ Hc) as [Dc _].
  destruct (all_digits_str_int (SrunCall.l3size s)) as [Ds _]; [lia|].
  destruct (all_digits_str_int _ Hn) as [Dn _].
  rewrite affinity_block_unlines, lines_unlines.
  - cbn [app shell_lines].
    replace (shell_line [] "") with (Some (@nil (string * string)))
      by reflexivity.
    do 4 (match goal with
          | |- context [shell_line [] (String "#" ?r)] =>
              replace (shell_line [] (String "#" r))
                with (Some (@nil (string * string))) by reflexivity
          end).
    replace (shell_line [] "") with (Some (@nil (string * string)))
      by reflexivity.
    rewrite (shell_line_numeral [] _ "L3CORES" (str_int (SrunCall.l3cores s))
               "L" ("3CORES=" ++ str_int (SrunCall.l3cores s)))
      by (reflexivity || assumption).
    rewrite (shell_line_numeral _ _ "L3SIZE" (str_int (SrunCall.l3size s))
               "L" ("3SIZE=" ++ str_int (SrunCall.l3size s)))
      by (reflexivity || assumption).
    rewrite (shell_line_numeral _ _ "NODESIZE"
               (str_int (SrunCall.nodesize s))
               "N" ("ODESIZE=" ++ str_int (SrunCall.nodesize s)))
      by (reflexivity || assumption).
    cbn [shell_line]. rewrite shell_line_cpu_map.
    rewrite python_stdout_cpu_map by assumption.
    rewrite strip_newlines_line by apply newline_free_join_ints.
    reflexivity.
  - cbn [forallb]. rewrite !newline_free_append, !newline_free_str_int.
    reflexivity.
Qed.

(** ** C3: the CPU map *)

(** C3. For a positive affinity triple the launch wrapper returns the
    affinity block followed by the launcher variables; run by the shell,
    the block leaves in CPU_MAP the output of its Python program on the
    three numbers, which is the comma-joined list, in increasing order, of
    exactly the integers i of [0, nodesize) with i mod l3size < l3cores.
    For (l3cores, l3size, nodesize) = (2, 4, 8) the value is 0,1,4,5. *)
Theorem cpu_map_selects_first_cores_of_each_cache
    (l3cores l3size nodesize : Z) (args : string) (xthi : bool) :
  0 < l3cores -> 0 < l3size -> 0 < nodesize ->
  exists selected,
    SrunCall.__str__ (SrunCall.mk l3cores l3size nodesize args xthi)
    = Ok (SrunCall.affinity_block
            (SrunCall.mk l3cores l3size nodesize args xthi)
          ++ SrunCall.srun_block (args ++ " --cpu_bind=map_cpu:${CPU_MAP}"))
    /\ cpu_map_of (SrunCall.mk l3cores l3size nodesize args xthi)
       = Some (join "," (map str_int selected))
    /\ (forall i, In i selected
                  <-> 0 <= i < nodesize /\ i mod l3size < l3cores)
    /\ StronglySorted Z.lt selected
    /\ cpu_map_of (SrunCall.mk 2 4 8 args xthi) = Some "0,1,4,5".
Proof.
  intros Hc Hs Hn. exists (cpu_map_select l3cores l3size nodesize).
  split; [|split; [|split; [|split]]].
  - apply srun_str_all_positive. unfold all_positive. cbn. lia.
  - apply (cpu_map_of_eq (SrunCall.mk l3cores l3size nodesize args xthi));
      cbn; lia.
  - intros i. apply in_cpu_map_select.
  - apply sorted_cpu_map_select.
  - rewrite (cpu_map_of_eq (SrunCall.mk 2 4 8 args xthi)) by (cbn; lia).
    reflexivity.
Qed.

Lemma cpu_map_selects_first_cores_of_each_cache_witness :
  exists selected,
    SrunCall.__str__ (SrunCall.mk 2 4 8 "--hint=nomultithread" true)
    = Ok (SrunCall.affinity_block
            (SrunCall.mk 2 4 8 "--hint=nomultithread" true)
          ++ SrunCall.srun_block
               ("--hint=nomultithread" ++ " --cpu_bind=map_cpu:${CPU_MAP}"))
    /\ cpu_map_of (SrunCall.mk 2 4 8 "--hint=nomultithread" true)
       = Some (join "," (map str_int selected))
    /\ (forall i, In i selected <-> 0 <= i < 8 /\ i mod 4 < 2)
    /\ StronglySorted Z.lt selected
    /\ cpu_map_of (SrunCall.mk 2 4 8 "--hint=nomultithread" true)
       = Some "0,1,4,5".
Proof.
  apply (cpu_map_selects_first_cores_of_each_cache 2 4 8
           "--hint=nomultithread" true); lia.
Defined.

(** X9. When the cache size divides the node size and at most a whole
    cache is used, the value the affinity block leaves in CPU_MAP is the
    comma-joined list of the selected cores, and that list has
    l3cores * (nodesize / l3size) entries: the number the comment of the
    block requires of ntasks-per-node. *)
Theorem cpu_map_has_one_entry_per_task (l3cores l3size nodesize : Z)
    (args : string) (xthi : bool) :
  0 < l3cores <= l3size -> 0 <= nodesize -> nodesize mod l3size = 0 ->
  exists selected,
    cpu_map_of (SrunCall.mk l3cores l3size nodesize args xthi)
    = Some (join "," (map str_int selected))
    /\ (forall i, In i selected
                  <-> 0 <= i < nodesize /\ i mod l3size < l3cores)
    /\ Z.of_nat (length selected) = l3cores * (nodesize / l3size).
Proof.
  intros Hc Hn Hd. exists (cpu_map_select l3cores l3size nodesize).
  split; [|split].
  - apply (cpu_map_of_eq (SrunCall.mk l3cores l3size nodesize args xthi));
      cbn; lia.
  - intros i. apply in_cpu_map_select.
  - assert (Hk : 0 <= nodesize / l3size) by (apply Z.div_pos; lia).
    assert (E : nodesize
                = l3size * Z.of_nat (Z.to_nat (nodesize / l3size))).
    { rewrite Z2Nat.id by exact Hk. apply Z.div_exact in Hd; lia. }
    rewrite E at 1. rewrite count_selected_blocks by lia. lia.
Qed.

Lemma cpu_map_has_one_entry_per_task_witness :
  exists selected,
    cpu_map_of Example.srun = Some (join "," (map str_int selected))
    /\ (forall i, In i selected <-> 0 <= i < 128 /\ i mod 4 < 2)
    /\ Z.of_nat (length selected) = 2 * (128 / 4).
Proof.
  apply (cpu_map_has_one_entry_per_task 2 4 128 "--hint=nomultithread"
           true); [lia | lia | reflexivity].
Defined.

(** X10. When l3cores is at least the cache size, the value the affinity
    block leaves in CPU_MAP is every core of the node, comma-joined in
    order. *)
Theorem cpu_map_of_full_caches_is_every_core (l3cores l3size nodesize : Z)
    (args : string) (xthi : bool) :
  0 < l3size <= l3cores -> 0 <= nodesize ->
  cpu_map_of (SrunCall.mk l3cores l3size nodesize args xthi)
  = Some (join "," (map str_int (range nodesize))).
Proof.
  intros H Hn.
  rewrite (cpu_map_of_eq (SrunCall.mk l3cores l3size nodesize args xthi))
    by (cbn; lia).
  cbn [SrunCall.l3cores SrunCall.l3size SrunCall.nodesize].
  unfold cpu_map_select. rewrite filter_all; [reflexivity|].
  intros i _. apply Z.ltb_lt. pose proof (Z.mod_pos_bound i l3size). lia.
Qed.

Lemma cpu_map_of_full_caches_is_every_core_witness :
  cpu_map_of (SrunCall.mk 4 4 8 "" false) = Some "0,1,2,3,4,5,6,7".
Proof.
  apply (cpu_map_of_full_caches_is_every_core 4 4 8 "" false); lia.
Defined.
